(** * Email campaign dashboard: job lifecycle, progress streaming and
      template rendering of [server/server.js]

    The development embeds the server's request handlers, the delivery loop
    [processEmailJob], the broadcaster [sendToClient] and the renderer part
    of [sendEmail] as Rocq functions, and proves properties of them.

    Conventions of the embedding.
    - A JavaScript string is the list of its UTF-16 code units ([list N]);
      [str] turns an ASCII literal into such a list.
    - A field that may be [undefined] is an [option]; [None] is [undefined].
    - Counters are natural numbers.
    - [emailJobs] holds references to job objects: the map sends a sender
      address to a location of [heap], so that the [job] variable of
      [processEmailJob] and the entry of the map alias the same object.
    - The outside world is an [Env]: the outcome of [createTransporter] and of
      every [transporter.sendMail] call.  Calls that leave the process are
      recorded in the [trace] of the state, in program order.
    - A write to an SSE response never throws; what a client has been sent
      is the list [res] of the events written to it. *)

From Stdlib Require Import Strings.String Strings.Ascii NArith DecimalString Lia.
From Stdlib Require Import Sorted.
From stdpp Require Import base option list gmap.

(** ** JavaScript strings *)

Module JS.

Abbreviation jsstring := (list N).

Definition str (s : String.string) : jsstring :=
  map N_of_ascii (String.list_ascii_of_string s).
Arguments str s%_string.

(** The double quote, kept apart from the literals. *)
Definition dq : jsstring := [34%N].

(** [ToBoolean] on a value that is a string or [undefined]. *)
Definition truthy (v : option jsstring) : bool :=
  match v with
  | Some (_ :: _) => true
  | _ => false
  end.

(** [`${v}`]: [ToString] of a string or of [undefined]. *)
Definition to_string (v : option jsstring) : jsstring :=
  match v with
  | Some s => s
  | None => str "undefined"
  end.

(** [v || ''] *)
Definition or_empty (v : option jsstring) : jsstring :=
  match v with
  | Some (c :: s) => c :: s
  | _ => []
  end.

(** [`${n}`] for a non-negative integer. *)
Definition of_nat (n : nat) : jsstring :=
  str (NilZero.string_of_uint (Nat.to_uint n)).

(** [s.split(sep)] for a separator of one code unit. *)
Fixpoint split (sep : N) (s : jsstring) : list jsstring :=
  match s with
  | [] => [[]]
  | c :: s' =>
      if (c =? sep)%N then [] :: split sep s'
      else match split sep s' with
           | p :: ps => (c :: p) :: ps
           | [] => [[c]]
           end
  end.

(** WhiteSpace and LineTerminator code units, as [String.prototype.trim]
    strips them. *)
Definition is_white_space (c : N) : bool :=
  ((9 <=? c) && (c <=? 13) || (c =? 32) || (c =? 160) || (c =? 5760)
   || (8192 <=? c) && (c <=? 8202) || (c =? 8232) || (c =? 8233)
   || (c =? 8239) || (c =? 8287) || (c =? 12288) || (c =? 65279))%N.

Fixpoint trim_start (s : jsstring) : jsstring :=
  match s with
  | [] => []
  | c :: s' => if is_white_space c then trim_start s' else s
  end.

Definition trim (s : jsstring) : jsstring :=
  rev (trim_start (rev (trim_start s))).

(** What [.] does not match in a regular expression without the [s] flag. *)
Definition is_line_terminator (c : N) : bool :=
  ((c =? 10) || (c =? 13) || (c =? 8232) || (c =? 8233))%N.

Fixpoint starts_with (p s : jsstring) : bool :=
  match p, s with
  | [], _ => true
  | _ :: _, [] => false
  | a :: p', b :: s' => (a =? b)%N && starts_with p' s'
  end.

(** [GetSubstitution] for a regular expression without capture groups: the
    replacement text is scanned once; [$$] is a dollar, [$&] the matched
    text, [$`] the text before the match, [$'] the text after it; any other
    [$] stands for itself. *)
Fixpoint GetSubstitution (matched before after replacement : jsstring) : jsstring :=
  match replacement with
  | [] => []
  | c :: r =>
      if (c =? 36)%N then
        match r with
        | [] => [c]
        | d :: r' =>
            if (d =? 36)%N then 36%N :: GetSubstitution matched before after r'
            else if (d =? 38)%N then matched ++ GetSubstitution matched before after r'
            else if (d =? 96)%N then before ++ GetSubstitution matched before after r'
            else if (d =? 39)%N then after ++ GetSubstitution matched before after r'
            else c :: GetSubstitution matched before after r
        end
      else c :: GetSubstitution matched before after r
  end.

(** A matcher tries the pattern at the head of the text that is left and
    gives the length of the match and its first capture group; a replacer
    gets the whole subject, the position and length of the match and the
    capture. *)
Definition matcher := jsstring -> option (nat * jsstring).
Definition replacer := jsstring -> nat -> nat -> jsstring -> jsstring.

(** [subject.replace(/.../g, ...)]: the matches are found from left to
    right and do not overlap; the text between them is copied.  [skip] counts
    the code units of the current match that are still to be passed over. *)
Fixpoint replace_from (m : matcher) (r : replacer) (subject : jsstring)
    (position skip : nat) (s : jsstring) : jsstring :=
  match s with
  | [] => []
  | c :: s' =>
      match skip with
      | S k => replace_from m r subject (S position) k s'
      | O =>
          match m s with
          | Some (S n, capture) =>
              r subject position (S n) capture
                ++ replace_from m r subject (S position) n s'
          | _ => c :: replace_from m r subject (S position) 0 s'
          end
      end
  end.

Definition replace_global (m : matcher) (r : replacer) (subject : jsstring) : jsstring :=
  replace_from m r subject 0 0 subject.

(** A pattern that is a fixed text, as [/\$\{Name\}/]. *)
Definition literal (pattern : jsstring) : matcher :=
  fun s => if starts_with pattern s then Some (length pattern, []) else None.

(** A replacement given as a string: [GetSubstitution] expands it at every
    match. *)
Definition by_string (replacement : jsstring) : replacer :=
  fun subject position len _ =>
    GetSubstitution (take len (drop position subject)) (take position subject)
      (drop (position + len) subject) replacement.

(** [subject.replace(/pattern/g, replacement)] for a fixed text. *)
Definition replace_all (pattern replacement subject : jsstring) : jsstring :=
  replace_global (literal pattern) (by_string replacement) subject.

End JS.

Export JS.

(** ** Data model *)

(** A recipient record: a row of the sheet, or an entry of the manual list. *)
Record Row := {
  Name : option jsstring;
  Email : option jsstring;
  Company : option jsstring;
  Role : option jsstring;
  Link : option jsstring
}.

Inductive Status := preparing | processing.

(** The object stored in [emailJobs]. *)
Record Job := {
  jobId : jsstring;
  data : list Row;
  email : jsstring;
  password : jsstring;
  userType : option jsstring;
  customEmailBody : option jsstring;
  status : Status;
  total : nat;
  current : nat;
  success : nat;
  failed : nat
}.

(** The payloads of [sendToClient] and of the first write of the SSE
    endpoint. *)
Inductive Event :=
  | Progress (total current success failed : nat)
  | Log (message : jsstring)
  | Complete (success failed : nat).

Record MailOptions := {
  mail_from : jsstring;
  mail_to : option jsstring;
  subject : jsstring;
  html : jsstring
}.

(** A call either returns or throws an [Error] with a message. *)
Inductive outcome (A : Type) :=
  | Return (a : A)
  | Throw (message : jsstring).
Arguments Return {A} a.
Arguments Throw {A} message.

(** An entry of [clients]; [res] is what has been written to the response. *)
Record Client := {
  client_id : nat;
  client_email : jsstring;
  res : list Event
}.

(** Calls that leave the process, and the calls of [sendToClient]. *)
Inductive Action :=
  | SetTimeout (email : jsstring) (ms : nat)
  | CreateTransporter (email password : jsstring)
  | Publish (email : jsstring) (data : Event)
  | SendEmail (row : Row)
  | SendMail (mailOptions : MailOptions)
  | Sleep (ms : nat).

Abbreviation loc := positive.

Record State := {
  emailJobs : gmap jsstring loc;
  heap : gmap loc Job;
  clients : gmap nat Client;
  trace : list Action
}.

(** The answers of the outside world, each as a function of what has
    happened so far. *)
Record Env := {
  createTransporter : list Action -> jsstring -> jsstring -> outcome unit;
  sendMail : list Action -> MailOptions -> outcome unit
}.

#[global] Instance Row_eq_dec : EqDecision Row.
Proof. solve_decision. Defined.
#[global] Instance Status_eq_dec : EqDecision Status.
Proof. solve_decision. Defined.
#[global] Instance Job_eq_dec : EqDecision Job.
Proof. solve_decision. Defined.
#[global] Instance Event_eq_dec : EqDecision Event.
Proof. solve_decision. Defined.
#[global] Instance MailOptions_eq_dec : EqDecision MailOptions.
Proof. solve_decision. Defined.

#[global] Instance Job_inhabited : Inhabited Job :=
  populate {| jobId := []; data := []; email := []; password := [];
              userType := None; customEmailBody := None; status := preparing;
              total := 0; current := 0; success := 0; failed := 0 |}.

(** ** The templates of [sendEmail] *)

Module Template.

Definition builtin_0 : jsstring :=
  str "
        <!DOCTYPE html>
        <html>
        <head>
          <meta charset="
  ++ dq
  ++ str "utf-8"
  ++ dq
  ++ str ">
          <meta name="
  ++ dq
  ++ str "viewport"
  ++ dq
  ++ str " content="
  ++ dq
  ++ str "width=device-width, initial-scale=1"
  ++ dq
  ++ str ">
          <style>
            body, p, div, a {
              font-family: Arial, sans-serif;
              line-height: 1.6;
              color: #2c3e50;
              margin: 0;
              padding: 0;
            }
            
            .container {
              max-width: 600px;
              padding: 20px;
            }
  
             .greeting {
              margin: 0;
            }
            
            .highlight {
              color: #2c3e50;
              font-weight: bold;
            }
            
            .experience {
              margin: 15px 0;
              padding: 15px;
              background: #f9f9f9;
              border-radius: 4px;
            }
            
            .tech-skills {
              display: inline-block;
              background: #f0f0f0;
              padding: 3px 8px;
              margin: 2px;
              border-radius: 3px;
              font-size: 13px;
              color: #2c3e50;
            }
            
            .links {
              margin: 20px 0;
              text-align: left;
            }
            
            .link-button {
              display: inline-block;
              margin: 5px 12px 5px 0;
              padding: 10px 20px;
              background: linear-gradient(135deg, #2c3e50 0%, #3498db 100%);
              color: white !important;
              text-decoration: none;
              border-radius: 6px;
              font-size: 14px;
              font-weight: 500;
              letter-spacing: 0.3px;
              border: 2px solid transparent;
              box-shadow: 0 2px 4px rgba(0, 0, 0, 0.1);
              transition: all 0.3s ease;
            }
            
            .link-button:hover {
              background: linear-gradient(135deg, #3498db 0%, #2c3e50 100%);
              transform: translateY(-1px);
              box-shadow: 0 4px 8px rgba(0, 0, 0, 0.15);
            }
            
            .link-button:active {
              transform: translateY(1px);
              box-shadow: 0 1px 2px rgba(0, 0, 0, 0.1);
            }
  
            .link-button.resume {
              background: linear-gradient(135deg, #2ecc71 0%, #27ae60 100%);
            }
            
            .link-button.resume:hover {
              background: linear-gradient(135deg, #27ae60 0%, #2ecc71 100%);
            }
  
            .link-button.linkedin {
              background: linear-gradient(135deg, #0077B5 0%, #00A0DC 100%);
            }
            
            .link-button.linkedin:hover {
              background: linear-gradient(135deg, #00A0DC 0%, #0077B5 100%);
            }
  
            .link-button.job {
              background: linear-gradient(135deg, #2c3e50 0%, #34495e 100%);
            }
            
            .link-button.job:hover {
              background: linear-gradient(135deg, #34495e 0%, #2c3e50 100%);
            }
            
            hr {
              border: none;
              border-top: 1px solid #eee;
              margin: 20px 0;
            }
            
            ul {
              padding-left: 20px;
              margin: 10px 0;
            }
            
            li {
              margin: 8px 0;
            }
            
            p {
              margin: 15px 0;
            }
            
            @media only screen and (max-width: 600px) {
              .container {
                width: 100% !important;
                padding: 10px !important;
              }
              
              .link-button {
                display: inline-block;
                margin: 5px 10px 5px 0;
              }
            }
          </style>
        </head>
        <body>
          <div class="
  ++ dq
  ++ str "container"
  ++ dq
  ++ str ">
            <p class="
  ++ dq
  ++ str "greeting"
  ++ dq
  ++ str ">Hi ".

Definition builtin_1 : jsstring :=
  str ",</p>
            
            <p>I hope you're doing well! I came across the <span class="
  ++ dq
  ++ str "highlight"
  ++ dq
  ++ str ">".

Definition builtin_2 : jsstring :=
  str "</span> position at <span class="
  ++ dq
  ++ str "highlight"
  ++ dq
  ++ str ">".

Definition builtin_3 : jsstring :=
  str "</span> and am very interested in the opportunity. I'm currently working as an SDE-2 at Greenlight, focusing on backend development and payment systems.</p>
            
            <p>Here's an overview of my experience:</p>
            
            <div class="
  ++ dq
  ++ str "experience"
  ++ dq
  ++ str ">
              <ul>
                <li><strong>Greenlight (SDE-2 Backend | Oct 2023 - Present)</strong>
                  <ul>
                    <li>Led development of transaction processing microservices using Java Spring Boot, Node.js, and AWS, handling mission-critical payment operations</li>
                    <li>Architected card payment systems with comprehensive workflows for authorization, settlement, and 3DS authentication</li>
                    <li>Built flexible spend control system and implemented reconciliation processes, improving transaction accuracy by 99.9%</li>
                  </ul>
                </li>
                
                <li><strong>MPL (SDE-1 | Dec 2022 - Sept 2023)</strong>
                  - Led battle limiter feature development and contributed to Brazil market expansion through poker-ops service
                </li>
                
                <li><strong>ULA (SDE-1 | July 2022 - Nov 2022)</strong>
                  - Implemented pickup-point optimization and recommendation engine, reducing logistics costs by 65% and improving adoption by 35%
                </li>
                
                <li><strong>Amazon (SDE Intern | Feb 2022 - June 2022)</strong>
                  - Automated manual processes using Java-mapper-beans and implemented extended log retention using Timber
                </li>
              </ul>
            </div>
            
            <p>Technical skills I frequently use:</p>
            <p>
              <span class="
  ++ dq
  ++ str "tech-skills"
  ++ dq
  ++ str ">Java Spring Boot</span>
              <span class="
  ++ dq
  ++ str "tech-skills"
  ++ dq
  ++ str ">Kotlin</span>
              <span class="
  ++ dq
  ++ str "tech-skills"
  ++ dq
  ++ str ">Node.js</span>
              <span class="
  ++ dq
  ++ str "tech-skills"
  ++ dq
  ++ str ">PostgreSQL</span>
              <span class="
  ++ dq
  ++ str "tech-skills"
  ++ dq
  ++ str ">AWS</span>
              <span class="
  ++ dq
  ++ str "tech-skills"
  ++ dq
  ++ str ">Microservices</span>
              <span class="
  ++ dq
  ++ str "tech-skills"
  ++ dq
  ++ str ">RESTful APIs</span>
            </p>
            
            <p>A few important points:</p>
            <ul>
              <li>Notice period is 30 days (negotiable)</li>
              <li>Available for immediate interviews</li>
              <li>Strong background in payment systems and scalable architectures</li>
            </ul>
            
            <div class="
  ++ dq
  ++ str "links"
  ++ dq
  ++ str ">
              <a href="
  ++ dq
  ++ str "https://drive.google.com/file/d/177azdELnL0AGwqkAHtxiji7fbvkObbbh/view"
  ++ dq
  ++ str " class="
  ++ dq
  ++ str "link-button resume"
  ++ dq
  ++ str ">"
  ++ [55357%N; 56516%N]
  ++ str " My Resume</a>
              <a href="
  ++ dq
  ++ str "https://www.linkedin.com/in/navneet-khandelwal-05091a169/"
  ++ dq
  ++ str " class="
  ++ dq
  ++ str "link-button linkedin"
  ++ dq
  ++ str ">"
  ++ [55357%N; 56420%N]
  ++ str " LinkedIn Profile</a>
              ".

Definition link_button_0 : jsstring :=
  str "<a href="
  ++ dq.

Definition link_button_1 : jsstring :=
  dq
  ++ str " class="
  ++ dq
  ++ str "link-button job"
  ++ dq
  ++ str ">"
  ++ [55357%N; 56589%N]
  ++ str " Job Details</a>".

Definition builtin_4 : jsstring :=
  str "
            </div>
            
            <hr>
            
            <p>I would be delighted to discuss how I can contribute to ".

Definition builtin_5 : jsstring :=
  str ".</p>
            
            <p>Thank you for your time and consideration. Looking forward to hearing from you!<br>
            Best regards,<br>
            Navneet Khandelwal<br>
            +91 9773549557</p>
          </div>
        </body>
        </html>
      ".

Definition emailStyles : jsstring :=
  str "
        <style>
          body, p, div, a {
            font-family: Arial, sans-serif;
            line-height: 1.6;
            color: #2c3e50;
            margin: 0;
            padding: 0;
          }
          
          .container {
            max-width: 600px;
            padding: 20px;
          }
  
          .greeting {
            margin: 0;
          }
          
          .highlight {
            color: #2c3e50;
            font-weight: bold;
          }
          
          .experience {
            margin: 15px 0;
            padding: 15px;
            background: #f9f9f9;
            border-radius: 4px;
          }
          
          .tech-skills {
            display: inline-block;
            background: #f0f0f0;
            padding: 3px 8px;
            margin: 2px;
            border-radius: 3px;
            font-size: 13px;
            color: #2c3e50;
          }
          
          .links {
            margin: 20px 0;
            text-align: left;
          }
          
          .link-button {
            display: inline-block;
            margin: 5px 12px 5px 0;
            padding: 10px 20px;
            background: linear-gradient(135deg, #2c3e50 0%, #3498db 100%);
            color: white !important;
            text-decoration: none;
            border-radius: 6px;
            font-size: 14px;
            font-weight: 500;
            letter-spacing: 0.3px;
            border: 2px solid transparent;
            box-shadow: 0 2px 4px rgba(0, 0, 0, 0.1);
            transition: all 0.3s ease;
          }
          
          .link-button:hover {
            background: linear-gradient(135deg, #3498db 0%, #2c3e50 100%);
            transform: translateY(-1px);
            box-shadow: 0 4px 8px rgba(0, 0, 0, 0.15);
          }
          
          .link-button:active {
            transform: translateY(1px);
            box-shadow: 0 1px 2px rgba(0, 0, 0, 0.1);
          }
  
          .link-button.resume {
            background: linear-gradient(135deg, #2ecc71 0%, #27ae60 100%);
          }
          
          .link-button.resume:hover {
            background: linear-gradient(135deg, #27ae60 0%, #2ecc71 100%);
          }
  
          .link-button.linkedin {
            background: linear-gradient(135deg, #0077B5 0%, #00A0DC 100%);
          }
          
          .link-button.linkedin:hover {
            background: linear-gradient(135deg, #00A0DC 0%, #0077B5 100%);
          }
  
          .link-button.job {
            background: linear-gradient(135deg, #2c3e50 0%, #34495e 100%);
          }
          
          .link-button.job:hover {
            background: linear-gradient(135deg, #34495e 0%, #2c3e50 100%);
          }
          
          hr {
            border: none;
            border-top: 1px solid #eee;
            margin: 20px 0;
          }
          
          ul {
            padding-left: 20px;
            margin: 10px 0;
          }
          
          li {
            margin: 8px 0;
          }
          
          p {
            margin: 15px 0;
          }
          
          @media only screen and (max-width: 600px) {
            .container {
              width: 100% !important;
              padding: 10px !important;
            }
            
            .link-button {
              display: inline-block;
              margin: 5px 10px 5px 0;
            }
          }
        </style>
      ".

Definition document_0 : jsstring :=
  str "
        <!DOCTYPE html>
        <html>
        <head>
          <meta charset="
  ++ dq
  ++ str "utf-8"
  ++ dq
  ++ str ">
          <meta name="
  ++ dq
  ++ str "viewport"
  ++ dq
  ++ str " content="
  ++ dq
  ++ str "width=device-width, initial-scale=1"
  ++ dq
  ++ str ">
          ".

Definition document_1 : jsstring :=
  str "
        </head>
        ".

Definition document_2 : jsstring :=
  str "
        </html>
      ".

(** [`<a href="${Link}" class="link-button job">... Job Details</a>`] *)
Definition link_button (Link : option jsstring) : jsstring :=
  link_button_0 ++ to_string Link ++ link_button_1.

(** The template of the [navneet] variant, a template literal. *)
Definition builtin (firstName Role Company Link : option jsstring) : jsstring :=
  builtin_0 ++ to_string firstName ++ builtin_1 ++ to_string Role
    ++ builtin_2 ++ to_string Company ++ builtin_3
    ++ (if truthy Link then link_button Link else [])
    ++ builtin_4 ++ to_string Company ++ builtin_5.

(** The document built around the custom body. *)
Definition document (customBody : jsstring) : jsstring :=
  document_0 ++ emailStyles ++ document_1 ++ customBody ++ document_2.

(** [linkRegex = /\$\{Link \? `(.*?)` : ''\}/g] *)
Definition link_open : jsstring := str "${Link ? `".
Definition link_close : jsstring := str "` : ''}".

(** [(.*?)] followed by the closing text: the shortest run of code units
    that are no line terminators after which the closing text stands. *)
Fixpoint lazy_dots (close s : jsstring) : option jsstring :=
  if starts_with close s then Some []
  else match s with
       | [] => None
       | c :: s' =>
           if is_line_terminator c then None
           else match lazy_dots close s' with
                | Some content => Some (c :: content)
                | None => None
                end
       end.

Definition linkRegex : matcher :=
  fun s =>
    if starts_with link_open s then
      match lazy_dots link_close (drop (length link_open) s) with
      | Some content =>
          Some (length link_open + length content + length link_close, content)
      | None => None
      end
    else None.

(** [(match, content) => Link ? content : ''] *)
Definition link_replacer (Link : option jsstring) : replacer :=
  fun _ _ _ content => if truthy Link then content else [].

Definition resolve_link (Link : option jsstring) (emailTemplate : jsstring) : jsstring :=
  replace_global linkRegex (link_replacer Link) emailTemplate.

(** The chain of six [replace] calls on the regular template variables. *)
Definition replace_variables (firstName Name Company Email Role Link : option jsstring)
    (emailTemplate : jsstring) : jsstring :=
  replace_all (str "${Link}") (or_empty Link)
    (replace_all (str "${Role}") (to_string Role)
      (replace_all (str "${Email}") (to_string Email)
        (replace_all (str "${Company}") (to_string Company)
          (replace_all (str "${Name}") (to_string Name)
            (replace_all (str "${firstName}") (to_string firstName)
              emailTemplate))))).

(** [nameParts[0]] of [Name.split(' ')] *)
Definition first_name (name : jsstring) : option jsstring :=
  split 32%N name !! 0%nat.

(** The template of the [other] variant, after both substitutions. *)
Definition custom (customEmailBody : jsstring) (row : Row) (name : jsstring) : jsstring :=
  replace_variables (first_name name) (Some name) (Company row) (Email row)
    (Role row) (Link row)
    (resolve_link (Link row) (document (trim customEmailBody))).

(** [sendEmail] up to its call of [transporter.sendMail]: the message, or
    the error thrown on the way. *)
Definition mailOptions (row : Row) (job : Job) : outcome MailOptions :=
  match Name row with
  | None => Throw (str "Cannot read properties of undefined (reading 'split')")
  | Some name =>
      let emailTemplate :=
        if decide (userType job = Some (str "navneet")) then
          Return (builtin (first_name name) (Role row) (Company row) (Link row))
        else if decide (userType job = Some (str "other")) then
          if truthy (customEmailBody job) then
            Return (custom (to_string (customEmailBody job)) row name)
          else Throw (str "No custom email template provided")
        else Throw (str "Invalid user type specified")
      in
      match emailTemplate with
      | Throw message => Throw message
      | Return emailTemplate =>
          Return
            {| mail_from :=
                 (if decide (userType job = Some (str "navneet"))
                  then str "Navneet Khandelwal"
                  else str "Interview Opportunity Needed")
                 ++ str " <" ++ email job ++ str ">";
               mail_to := Email row;
               subject :=
                 str "Request for an Interview Opportunity - "
                   ++ to_string (Role row) ++ str " at "
                   ++ to_string (Company row);
               html := emailTemplate |}
      end
  end.

(** The texts are long: they are kept folded when terms are simplified. *)
Arguments builtin_0 : simpl never.
Arguments builtin_1 : simpl never.
Arguments builtin_2 : simpl never.
Arguments builtin_3 : simpl never.
Arguments builtin_4 : simpl never.
Arguments builtin_5 : simpl never.
Arguments link_button_0 : simpl never.
Arguments link_button_1 : simpl never.
Arguments emailStyles : simpl never.
Arguments document_0 : simpl never.
Arguments document_1 : simpl never.
Arguments document_2 : simpl never.
Arguments link_open : simpl never.
Arguments link_close : simpl never.
Arguments builtin : simpl never.
Arguments custom : simpl never.
Arguments mailOptions : simpl never.

End Template.

(** ** The server: job store, broadcaster, delivery loop, handlers *)

Module Server.

Import Template.

(** *** State passing *)

Definition M (A : Type) : Type := State -> A * State.

Definition ret {A} (a : A) : M A := fun st => (a, st).

Definition bind {A B} (c : M A) (k : A -> M B) : M B :=
  fun st => let (a, st') := c st in k a st'.

Notation "x <- c ;; k" := (bind c (fun x => k))
  (at level 100, c at next level, right associativity).
Notation "c ;; k" := (bind c (fun _ => k))
  (at level 100, right associativity).

Definition gets {A} (f : State -> A) : M A := fun st => (f st, st).

Definition modify (f : State -> State) : M unit := fun st => (tt, f st).

Definition set_emailJobs (f : gmap jsstring loc -> gmap jsstring loc) (st : State) : State :=
  {| emailJobs := f (emailJobs st); heap := heap st;
     clients := clients st; trace := trace st |}.

Definition set_heap (f : gmap loc Job -> gmap loc Job) (st : State) : State :=
  {| emailJobs := emailJobs st; heap := f (heap st);
     clients := clients st; trace := trace st |}.

Definition set_clients (f : gmap nat Client -> gmap nat Client) (st : State) : State :=
  {| emailJobs := emailJobs st; heap := heap st;
     clients := f (clients st); trace := trace st |}.

Definition set_trace (f : list Action -> list Action) (st : State) : State :=
  {| emailJobs := emailJobs st; heap := heap st;
     clients := clients st; trace := f (trace st) |}.

(** A call recorded in the trace. *)
Definition emit (a : Action) : M unit := modify (set_trace (fun t => t ++ [a])).

(** [job.field] and [job.field = v] on the object at a location. *)
Definition read (l : loc) : M Job := gets (fun st => heap st !!! l).

Definition update (l : loc) (f : Job -> Job) : M unit := modify (set_heap (alter f l)).

Definition with_status (v : Status) (job : Job) : Job :=
  {| jobId := jobId job; data := data job; email := email job;
     password := password job; userType := userType job;
     customEmailBody := customEmailBody job; status := v;
     total := total job; current := current job; success := success job;
     failed := failed job |}.

Definition with_current (v : nat) (job : Job) : Job :=
  {| jobId := jobId job; data := data job; email := email job;
     password := password job; userType := userType job;
     customEmailBody := customEmailBody job; status := status job;
     total := total job; current := v; success := success job;
     failed := failed job |}.

Definition with_success (v : nat) (job : Job) : Job :=
  {| jobId := jobId job; data := data job; email := email job;
     password := password job; userType := userType job;
     customEmailBody := customEmailBody job; status := status job;
     total := total job; current := current job; success := v;
     failed := failed job |}.

Definition with_failed (v : nat) (job : Job) : Job :=
  {| jobId := jobId job; data := data job; email := email job;
     password := password job; userType := userType job;
     customEmailBody := customEmailBody job; status := status job;
     total := total job; current := current job; success := success job;
     failed := v |}.

(** *** [sendToClient] *)

(** [client.res.write(...)] *)
Definition write (data : Event) (client : Client) : Client :=
  {| client_id := client_id client; client_email := client_email client;
     res := res client ++ [data] |}.

Definition sendToClient (sender : jsstring) (data : Event) : M unit :=
  emit (Publish sender data) ;;
  modify (set_clients (fmap (fun client =>
    if decide (client_email client = sender) then write data client
    else client))) ;;
  match data with
  | Progress _ c s f =>
      job <- gets (fun st => emailJobs st !! sender) ;;
      match job with
      | Some l =>
          update l (with_current c) ;;
          update l (with_success s) ;;
          update l (with_failed f)
      | None => ret tt
      end
  | _ => ret tt
  end.

(** *** [sendEmail] *)

(** The job is passed by reference: [l] is the object [job] refers to.  The
    message is composed first; the transport is called only when that did
    not throw, and its answer is the answer of the call. *)
Definition sendEmail (env : Env) (row : Row) (l : loc) : M (outcome unit) :=
  emit (SendEmail row) ;;
  job <- read l ;;
  match mailOptions row job with
  | Throw message => ret (Throw message)
  | Return options =>
      t <- gets trace ;;
      emit (SendMail options) ;;
      ret (sendMail env t options)
  end.

(** *** [processEmailJob] *)

(** [!row.Name || !row.Email || !row.Company || !row.Role] *)
Definition missing_required (row : Row) : bool :=
  negb (truthy (Name row)) || negb (truthy (Email row))
  || negb (truthy (Company row)) || negb (truthy (Role row)).

(** The body of the [for] loop, for the row at index [i]; [l] is the object
    the variable [job] refers to. *)
Definition iteration (env : Env) (sender : jsstring) (l : loc) (i : nat) (row : Row) : M unit :=
  update l (with_current (i + 1)) ;;
  if missing_required row then
    sendToClient sender
      (Log (str "Skipping row " ++ of_nat (i + 1)
              ++ str ": Missing required fields")) ;;
    update l (fun job => with_failed (failed job + 1) job)
  else
    sent <- sendEmail env row l ;;
    match sent with
    | Return _ =>
        update l (fun job => with_success (success job + 1) job) ;;
        job <- read l ;;
        sendToClient sender
          (Log (of_nat (i + 1) ++ str "/" ++ of_nat (total job)
                  ++ str ": Successfully sent email to "
                  ++ to_string (Email row)))
    | Throw message =>
        update l (fun job => with_failed (failed job + 1) job) ;;
        job <- read l ;;
        sendToClient sender
          (Log (of_nat (i + 1) ++ str "/" ++ of_nat (total job)
                  ++ str ": Failed to send email to "
                  ++ to_string (Email row) ++ str ": " ++ message))
    end ;;
    job <- read l ;;
    sendToClient sender
      (Progress (total job) (current job) (success job) (failed job)) ;;
    if i <? length (data job) - 1 then emit (Sleep 3000) else ret tt.

(** The [for] loop from index [i] on; [rows] is what is left of [job.data],
    which nothing assigns after the job has been stored. *)
Fixpoint loop (env : Env) (sender : jsstring) (l : loc) (i : nat) (rows : list Row) : M unit :=
  match rows with
  | [] => ret tt
  | row :: rows' =>
      iteration env sender l i row ;;
      loop env sender l (S i) rows'
  end.

Definition processEmailJob (env : Env) (sender : jsstring) : M unit :=
  entry <- gets (fun st => emailJobs st !! sender) ;;
  match entry with
  | None => ret tt
  | Some l =>
      update l (with_status processing) ;;
      job <- read l ;;
      t <- gets trace ;;
      emit (CreateTransporter (email job) (password job)) ;;
      match createTransporter env t (email job) (password job) with
      | Throw message =>
          sendToClient sender
            (Log (str "Error creating email transporter: " ++ message)) ;;
          job <- read l ;;
          sendToClient sender (Complete 0 (total job)) ;;
          modify (set_emailJobs (delete sender))
      | Return _ =>
          sendToClient sender
            (Log (str "Starting email sending process for "
                    ++ of_nat (total job) ++ str " recipients")) ;;
          job <- read l ;;
          loop env sender l 0 (data job) ;;
          job <- read l ;;
          sendToClient sender (Complete (success job) (failed job)) ;;
          modify (set_emailJobs (delete sender))
      end
  end.

(** *** [POST /api/send-emails] *)

(** [req.file] with what [processCSVFile] makes of it. *)
Inductive Upload :=
  | Sheet (rows : list Row)
  | Unreadable.

(** [req.body.data] with what [JSON.parse] makes of it. *)
Inductive Manual :=
  | Parsed (rows : list Row)
  | SyntaxError (message : jsstring).

Record Request := {
  req_email : option jsstring;
  req_password : option jsstring;
  req_mode : option jsstring;
  req_userType : option jsstring;
  req_customEmailBody : option jsstring;
  req_file : option Upload;
  req_data : option Manual
}.

Inductive Response :=
  | Failure (code : nat) (message : jsstring)
  | Started (jobId : jsstring) (total : nat).

(** The rows of the request: a response sent early, an error thrown, or
    the rows. *)
Definition request_rows (req : Request) : Response + outcome (list Row) :=
  if decide (req_mode req = Some (str "csv")) then
    match req_file req with
    | None => inl (Failure 400 (str "No file uploaded"))
    | Some Unreadable => inr (Throw (str "Failed to process CSV file"))
    | Some (Sheet rows) => inr (Return rows)
    end
  else if decide (req_mode req = Some (str "manual")) then
    match req_data req with
    | None => inl (Failure 400 (str "No manual data provided"))
    | Some (SyntaxError message) => inr (Throw message)
    | Some (Parsed rows) => inr (Return rows)
    end
  else inr (Return []).

Definition new_job (uuid : jsstring) (rows : list Row) (req : Request) : Job :=
  {| jobId := uuid; data := rows; email := to_string (req_email req);
     password := to_string (req_password req);
     userType := req_userType req;
     customEmailBody :=
       if truthy (req_customEmailBody req) then req_customEmailBody req
       else None;
     status := preparing; total := length rows;
     current := 0; success := 0; failed := 0 |}.

(** The handler; [uuid] is the value [uuidv4()] returns. *)
Definition send_emails (req : Request) (uuid : jsstring) : M Response :=
  if negb (truthy (req_email req)) || negb (truthy (req_password req)) then
    ret (Failure 400 (str "Email credentials are required"))
  else
    match request_rows req with
    | inl early => ret early
    | inr (Throw message) =>
        ret (Failure 500
               (if truthy (Some message) then message
                else str "Server error processing request"))
    | inr (Return rows) =>
        if decide (length rows = 0) then
          ret (Failure 400 (str "No valid data found"))
        else
          l <- gets (fun st => fresh (dom (heap st))) ;;
          modify (set_heap (insert l (new_job uuid rows req))) ;;
          modify (set_emailJobs (insert (to_string (req_email req)) l)) ;;
          emit (SetTimeout (to_string (req_email req)) 100) ;;
          ret (Started uuid (length rows))
    end.

(** *** [GET /api/send-emails-sse] *)

Inductive Subscription :=
  | BadRequest (message : jsstring)
  | EventStream.

(** The handler; [now] is the value [Date.now()] returns. *)
Definition send_emails_sse (query_email : option jsstring) (now : nat) : M Subscription :=
  if negb (truthy query_email) then
    ret (BadRequest (str "Email parameter is required"))
  else
    entry <- gets (fun st => emailJobs st !! to_string query_email) ;;
    first <-
      match entry with
      | Some l =>
          job <- read l ;;
          ret [Progress (total job) (current job) (success job) (failed job)]
      | None => ret []
      end ;;
    modify (set_clients (insert now
      {| client_id := now; client_email := to_string query_email;
         res := first |})) ;;
    ret EventStream.

(** [req.on('close', ...)] *)
Definition close (clientId : nat) : M unit :=
  modify (set_clients (delete clientId)).

Definition initial : State :=
  {| emailJobs := ∅; heap := ∅; clients := ∅; trace := [] |}.

End Server.

(** ** Templates as structured text

    A custom body written the way the placeholder syntax intends is a
    sequence of literal text, of the six placeholders, and of conditional
    blocks whose fragment is again text and placeholders.  [template_text]
    is how such a template is written; [template_value] is what it stands
    for, for a record: every placeholder gives way to its field once, and a
    conditional block to its fragment or to nothing. *)

Module Syntax.

Import Template.

Inductive placeholder :=
  | P_firstName | P_Name | P_Company | P_Email | P_Role | P_Link.

#[global] Instance placeholder_eq_dec : EqDecision placeholder.
Proof. solve_decision. Defined.

Inductive piece :=
  | Text (t : jsstring)
  | Hole (p : placeholder).

Inductive part :=
  | Piece (x : piece)
  | IfLink (fragment : list piece).

Definition placeholder_name (p : placeholder) : jsstring :=
  match p with
  | P_firstName => str "firstName"
  | P_Name => str "Name"
  | P_Company => str "Company"
  | P_Email => str "Email"
  | P_Role => str "Role"
  | P_Link => str "Link"
  end.

Definition placeholder_text (p : placeholder) : jsstring :=
  str "${" ++ placeholder_name p ++ str "}".

Definition piece_text (x : piece) : jsstring :=
  match x with
  | Text t => t
  | Hole p => placeholder_text p
  end.

Definition pieces_text (xs : list piece) : jsstring :=
  concat (map piece_text xs).

Definition part_text (y : part) : jsstring :=
  match y with
  | Piece x => piece_text x
  | IfLink fragment => link_open ++ pieces_text fragment ++ link_close
  end.

Definition template_text (t : list part) : jsstring :=
  concat (map part_text t).

(** What the replace calls of [sendEmail] put for a placeholder. *)
Definition field (row : Row) (name : jsstring) (p : placeholder) : jsstring :=
  match p with
  | P_firstName => to_string (first_name name)
  | P_Name => name
  | P_Company => to_string (Company row)
  | P_Email => to_string (Email row)
  | P_Role => to_string (Role row)
  | P_Link => or_empty (Link row)
  end.

Definition piece_value (row : Row) (name : jsstring) (x : piece) : jsstring :=
  match x with
  | Text t => t
  | Hole p => field row name p
  end.

Definition pieces_value (row : Row) (name : jsstring) (xs : list piece) : jsstring :=
  concat (map (piece_value row name) xs).

Definition part_value (row : Row) (name : jsstring) (y : part) : jsstring :=
  match y with
  | Piece x => piece_value row name x
  | IfLink fragment =>
      if truthy (Link row) then pieces_value row name fragment else []
  end.

Definition template_value (row : Row) (name : jsstring) (t : list part) : jsstring :=
  concat (map (part_value row name) t).

(** The template without its conditional blocks. *)
Fixpoint without_blocks (t : list part) : list part :=
  match t with
  | [] => []
  | Piece x :: t' => Piece x :: without_blocks t'
  | IfLink _ :: t' => without_blocks t'
  end.

(** Text free of the dollar sign. *)
Definition no_dollar (s : jsstring) : bool :=
  forallb (fun c => negb (c =? 36)%N) s.

(** The conditional blocks resolved: what [resolve_link] leaves of a
    template. *)
Definition resolved (Link : option jsstring) (t : list part) : list piece :=
  concat (map (fun y => match y with
                        | Piece x => [x]
                        | IfLink fragment => if truthy Link then fragment else []
                        end) t).

(** One placeholder filled in: what one [replace] call leaves. *)
Definition fill (p : placeholder) (v : jsstring) (x : piece) : piece :=
  match x with
  | Text t => Text t
  | Hole q => if decide (q = p) then Text v else Hole q
  end.

(** The first whitespace-delimited token of a text, as the specification words
    the first name: leading white space is passed over, and the token runs
    up to the next white space. *)
Fixpoint up_to_white_space (s : jsstring) : jsstring :=
  match s with
  | [] => []
  | c :: s' => if is_white_space c then [] else c :: up_to_white_space s'
  end.

Definition first_token (s : jsstring) : jsstring :=
  up_to_white_space (trim_start s).

End Syntax.

(** ** Properties looked at *)

Module Props.

Import Template Server Syntax.

(** A progress event whose counters add up. *)
Definition consistent (a : Action) : Prop :=
  match a with
  | Publish _ (Progress t c s f) => c = s + f /\ c <= t /\ 1 <= c
  | _ => True
  end.

(** A job as [send_emails] stores it: nothing processed yet. *)
Definition stored_fresh (st : State) (sender : jsstring) (l : loc) (job : Job) : Prop :=
  emailJobs st !! sender = Some l /\ heap st !! l = Some job
  /\ total job = length (data job)
  /\ current job = 0 /\ success job = 0 /\ failed job = 0.

(** The calls of [transporter.sendMail] in a trace. *)
Definition deliveries (t : list Action) : list MailOptions :=
  omap (fun a => match a with SendMail m => Some m | _ => None end) t.

(** The calls of [sendEmail] in a trace. *)
Definition renderings (t : list Action) : list Row :=
  omap (fun a => match a with SendEmail row => Some row | _ => None end) t.

(** What [sendToClient] writes to a client. *)
Definition receive (sender : jsstring) (events : list Event) (client : Client) : Client :=
  if decide (client_email client = sender) then
    {| client_id := client_id client; client_email := client_email client;
       res := res client ++ events |}
  else client.

(** [b] occurs in [a] as a run of consecutive code units. *)
Definition contains (a b : jsstring) : Prop :=
  exists pre post, a = pre ++ b ++ post.


(** A matcher whose pattern begins with the dollar sign. *)
Definition dollar_led (m : matcher) : Prop :=
  forall c s, c <> 36%N -> m (c :: s) = None.

(** [b] occurs in [a], decided. *)
Fixpoint occurs (b a : jsstring) : bool :=
  starts_with b a
  || match a with
     | [] => false
     | _ :: a' => occurs b a'
     end.

(** How the loop body ends for a row. *)
Inductive Result :=
  | Skipped
  | Sent
  | Failed (message : jsstring).

(** The end of the loop body for a row, from the trace [t] and the job at
    its start. *)
Definition attempt (env : Env) (t : list Action) (row : Row) (job : Job) : Result :=
  if missing_required row then Skipped
  else match mailOptions row job with
       | Throw message => Failed message
       | Return options =>
           match sendMail env (t ++ [SendEmail row]) options with
           | Return _ => Sent
           | Throw message => Failed message
           end
       end.

(** The job after the loop body. *)
Definition processed (i : nat) (r : Result) (job : Job) : Job :=
  match r with
  | Sent => with_success (success job + 1) (with_current (i + 1) job)
  | _ => with_failed (failed job + 1) (with_current (i + 1) job)
  end.

Definition row_log (i : nat) (row : Row) (r : Result) (job : Job) : Event :=
  match r with
  | Skipped =>
      Log (str "Skipping row " ++ of_nat (i + 1)
             ++ str ": Missing required fields")
  | Sent =>
      Log (of_nat (i + 1) ++ str "/" ++ of_nat (total job)
             ++ str ": Successfully sent email to " ++ to_string (Email row))
  | Failed message =>
      Log (of_nat (i + 1) ++ str "/" ++ of_nat (total job)
             ++ str ": Failed to send email to " ++ to_string (Email row)
             ++ str ": " ++ message)
  end.

(** The events the loop body publishes. *)
Definition row_events (i : nat) (row : Row) (r : Result) (job : Job) : list Event :=
  match r with
  | Skipped => [row_log i row r job]
  | _ =>
      let job' := processed i r job in
      [row_log i row r job;
       Progress (total job') (current job') (success job') (failed job')]
  end.

(** The calls the loop body makes. *)
Definition row_actions (sender : jsstring) (i : nat) (row : Row) (r : Result)
    (job : Job) : list Action :=
  match r with
  | Skipped => map (Publish sender) (row_events i row r job)
  | _ =>
      SendEmail row
        :: match mailOptions row job with
           | Return options => [SendMail options]
           | Throw _ => []
           end
        ++ map (Publish sender) (row_events i row r job)
        ++ (if i <? length (data job) - 1 then [Sleep 3000] else [])
  end.

End Props.

(** ** Records, requests and templates to try the definitions on *)

Module Examples.

Import Template Server Syntax Props.

Definition ada : Row :=
  {| Name := Some (str "Ada Lovelace"); Email := Some (str "ada@example.org");
     Company := Some (str "Acme"); Role := Some (str "Engineer");
     Link := Some (str "https://example.org/job") |}.

(** A row without the role. *)
Definition bob : Row :=
  {| Name := Some (str "Bob Stone"); Email := Some (str "bob@example.org");
     Company := Some (str "Acme"); Role := None; Link := None |}.

Definition me : jsstring := str "me@example.org".

(** A request for the custom variant that carries no custom body. *)
Definition request : Request :=
  {| req_email := Some me; req_password := Some (str "secret");
     req_mode := Some (str "manual"); req_userType := Some (str "other");
     req_customEmailBody := None; req_file := None;
     req_data := Some (Parsed [ada; bob; ada]) |}.

(** A transport that works, and one that cannot be set up. *)
Definition online : Env :=
  {| createTransporter := fun _ _ _ => Return tt;
     sendMail := fun _ _ => Return tt |}.

Definition offline : Env :=
  {| createTransporter := fun _ _ _ => Throw (str "Invalid login");
     sendMail := fun _ _ => Return tt |}.

Definition started : State := snd (send_emails request (str "job-1") initial).

Definition the_job : Job := new_job (str "job-1") [ada; bob; ada] request.

(** A name that begins with a space, and one with a tab in it. *)
Definition padded : Row :=
  {| Name := Some (str " Ada Lovelace"); Email := Some (str "ada@example.org");
     Company := Some (str "Acme"); Role := Some (str "Engineer");
     Link := None |}.

Definition tabbed : jsstring := str "Ada" ++ [9%N] ++ str "Lovelace".

(** A complete row without a link. *)
Definition carol : Row :=
  {| Name := Some (str "Carol Reed"); Email := Some (str "carol@example.org");
     Company := Some (str "Acme"); Role := Some (str "Analyst");
     Link := None |}.

(** A row whose company is written like a conditional block. *)
Definition dora : Row :=
  {| Name := Some (str "Dora Hall"); Email := Some (str "dora@example.org");
     Company := Some (str "${Link ? `Acme` : ''}"); Role := Some (str "Analyst");
     Link := None |}.

Definition job_of (variant : jsstring) (body : option jsstring) : Job :=
  {| jobId := str "job-1"; data := [ada]; email := me; password := str "secret";
     userType := Some variant; customEmailBody := body; status := processing;
     total := 1; current := 1; success := 0; failed := 0 |}.

(** A custom body with a conditional block on one line. *)
Definition body : jsstring :=
  str "  <body><p>Hi ${firstName},</p>${Link ? `<a href='${Link}'>${Role} at ${Company}</a>` : ''}</body>
".

Definition fragment : list piece :=
  [Text (str "<a href='"); Hole P_Link; Text (str "'>"); Hole P_Role;
   Text (str " at "); Hole P_Company; Text (str "</a>")].

Definition template : list part :=
  [Piece (Text (str "<body><p>Hi ")); Piece (Hole P_firstName);
   Piece (Text (str ",</p>")); IfLink fragment; Piece (Text (str "</body>"))].

(** A custom body whose conditional block runs over two lines. *)
Definition body_two_lines : jsstring :=
  str "<body>${Link ? `<a href='${Link}'>
  Job details</a>` : ''}</body>".

(** A custom body with a block and the company. *)
Definition body_company : jsstring :=
  str "<body>${Link ? `<a href='${Link}'>Job</a>` : ''}${Company}</body>".

Definition html_of (o : outcome MailOptions) : jsstring :=
  match o with
  | Return m => html m
  | Throw _ => []
  end.

End Examples.

(** ** The upload filter *)

Module Multer.

Import Props.

(** [filetypes = /csv|xlsx|xls/] and [filetypes.test(s)]: one of the three
    texts stands somewhere in [s]. *)
Definition filetypes_test (s : jsstring) : bool :=
  occurs (str "csv") s || occurs (str "xlsx") s || occurs (str "xls") s.

(** [fileFilter]: [extname] is what
    [path.extname(file.originalname).toLowerCase()] gives and [mimetype] is
    [file.mimetype]; the file is let through ([cb(null, true)]) or the
    error is handed to [cb]. *)
Definition fileFilter (extname mimetype : jsstring) : outcome bool :=
  if filetypes_test extname && filetypes_test mimetype then Return true
  else Throw (str "Only CSV, XLSX, and XLS files are allowed!").

End Multer.

(** ** A run of [processEmailJob] looked at from outside *)

Module Runs.

Import Template Server Syntax Props.

(** A row with all the required fields. *)
Definition complete (row : Row) : bool := negb (missing_required row).

(** A job for which [sendEmail] gets as far as the transport: the builtin
    variant, or the custom variant with a body. *)
Definition renderable (job : Job) : bool :=
  bool_decide (userType job = Some (str "navneet"))
  || bool_decide (userType job = Some (str "other"))
     && truthy (customEmailBody job).

(** What the loop leaves: the job, the events published and the calls
    made. *)
Record Outcome := {
  final : Job;
  events : list Event;
  actions : list Action
}.

(** The loop from index [i] on in closed form, by the end of each loop
    body. *)
Fixpoint rows_run (env : Env) (sender : jsstring) (i : nat) (rows : list Row)
    (job : Job) (t : list Action) : Outcome :=
  match rows with
  | [] => {| final := job; events := []; actions := [] |}
  | row :: rows' =>
      let r := attempt env t row job in
      let rest :=
        rows_run env sender (S i) rows' (processed i r job)
          (t ++ row_actions sender i row r job) in
      {| final := final rest;
         events := row_events i row r job ++ events rest;
         actions := row_actions sender i row r job ++ actions rest |}
  end.

(** The calls that [processEmailJob] adds to the trace. *)
Definition run_actions (env : Env) (sender : jsstring) (st : State) : list Action :=
  drop (length (trace st)) (trace (snd (processEmailJob env sender st))).

(** The events of the [sendToClient] calls of a trace. *)
Definition published (t : list Action) : list Event :=
  omap (fun a => match a with Publish _ e => Some e | _ => None end) t.

(** The delays of a trace. *)
Definition sleeps (t : list Action) : list nat :=
  omap (fun a => match a with Sleep ms => Some ms | _ => None end) t.

(** The [current] of the progress events of a trace. *)
Definition progress_currents (t : list Action) : list nat :=
  omap (fun a => match a with
                 | Publish _ (Progress _ c _ _) => Some c
                 | _ => None
                 end) t.

(** A call that publishes publishes for [sender]. *)
Definition for_sender (sender : jsstring) (a : Action) : Prop :=
  match a with
  | Publish s _ => s = sender
  | _ => True
  end.

(** A computation after which [emailJobs] is [f] of what it was. *)
Definition jobs_to {A : Type} (f : gmap jsstring loc -> gmap jsstring loc) (c : M A) : Prop :=
  forall st, emailJobs (snd (c st)) = f (emailJobs st).

End Runs.

(** ** More records and requests to try the definitions on *)

Module Cases.

Import Template Server Syntax Props Examples.

(** The request of [Examples], for the builtin variant. *)
Definition builtin_request : Request :=
  {| req_email := Some me; req_password := Some (str "secret");
     req_mode := Some (str "manual"); req_userType := Some (str "navneet");
     req_customEmailBody := None; req_file := None;
     req_data := Some (Parsed [ada; bob; ada]) |}.

Definition builtin_started : State := snd (send_emails builtin_request (str "job-2") initial).

Definition builtin_job : Job := new_job (str "job-2") [ada; bob; ada] builtin_request.

(** A transport that refuses every message. *)
Definition refusing : Env :=
  {| createTransporter := fun _ _ _ => Return tt;
     sendMail := fun _ _ => Throw (str "Mailbox unavailable") |}.

(** A store with a job that an earlier loop still works on ([1]) and the job
    that has taken its place ([2]). *)
Definition replaced : State :=
  {| emailJobs := {[ me := 2%positive ]};
     heap :=
       {[ 1%positive := with_success 1 (with_current 1 builtin_job);
          2%positive := new_job (str "job-3") [ada] builtin_request ]};
     clients := ∅; trace := [] |}.

(** A store with two subscribers, one for [me]. *)
Definition watched : State :=
  set_clients
    (fun _ => {[ 7 := {| client_id := 7; client_email := me; res := [] |};
                 8 := {| client_id := 8; client_email := str "you@example.org";
                         res := [] |} ]})
    builtin_started.

End Cases.

(** ** Templates that are read the way they are written

    What it takes for the two passes of the custom variant to read a
    structured template the way it is written.  For the first pass: the
    regular expression finds the blocks, and nothing else.  For the six
    replacements: a field stands for itself as a replacement text, and the
    placeholder that a replacement looks for begins in the text only where
    the template has it. *)

Module Reading.

Import Template Syntax Props.

(** A replacement text that [GetSubstitution] leaves as it is: no [$] in
    it is followed by [$], [&], a backtick or an apostrophe. *)
Fixpoint verbatim (v : jsstring) : bool :=
  match v with
  | [] => true
  | c :: r =>
      (if (c =? 36)%N then
         match r with
         | [] => true
         | d :: _ => negb ((d =? 36) || (d =? 38) || (d =? 96) || (d =? 39))%N
         end
       else true)
      && verbatim r
  end.

(** Text without line terminator. *)
Definition one_line (s : jsstring) : bool :=
  forallb (fun c => negb (is_line_terminator c)) s.

(** A fragment that [(.*?)] takes whole: it is on one line and the closing
    text does not occur in it. *)
Definition block_closed (fragment : list piece) : bool :=
  one_line (pieces_text fragment)
  && negb (occurs link_close (pieces_text fragment)).

Definition blocks_closed (t : list part) : bool :=
  forallb (fun y => match y with
                    | Piece _ => true
                    | IfLink fragment => block_closed fragment
                    end) t.

(** [pattern] begins somewhere inside [x] when [rest] follows [x]. *)
Fixpoint begins_in (pattern x rest : jsstring) : bool :=
  match x with
  | [] => false
  | _ :: x' => starts_with pattern (x ++ rest) || begins_in pattern x' rest
  end.

(** The opening text of a block does not begin inside the literal text
    outside of the blocks. *)
Fixpoint openers_marked (t : list part) : bool :=
  match t with
  | [] => true
  | Piece (Text x) :: t' =>
      negb (begins_in link_open x (template_text t')) && openers_marked t'
  | _ :: t' => openers_marked t'
  end.

(** The template is written so that [linkRegex] finds its blocks, and
    nothing else. *)
Definition well_written (t : list part) : bool :=
  blocks_closed t && openers_marked t.

(** The order of the six [replace] calls. *)
Definition passes : list placeholder :=
  [P_firstName; P_Name; P_Company; P_Email; P_Role; P_Link].

(** The fields that are put for the placeholders of [xs] stand for
    themselves. *)
Definition fields_verbatim (row : Row) (name : jsstring) (xs : list piece) : bool :=
  forallb (fun x => match x with
                    | Text _ => true
                    | Hole p => verbatim (field row name p)
                    end) xs.

(** The text of the placeholder [p] does not begin inside the text
    pieces of [xs]: it stands only where [xs] has the placeholder. *)
Fixpoint pattern_marked (p : placeholder) (xs : list piece) : bool :=
  match xs with
  | [] => true
  | Text x :: xs' =>
      negb (begins_in (placeholder_text p) x (pieces_text xs'))
      && pattern_marked p xs'
  | Hole _ :: xs' => pattern_marked p xs'
  end.

(** At each replacement of [ps], made in this order, the placeholder that
    is looked for stands only where the template has it: it begins neither
    in the literal text nor in the fields that the replacements before have
    put in. *)
Fixpoint passes_marked (row : Row) (name : jsstring) (ps : list placeholder)
    (xs : list piece) : bool :=
  match ps with
  | [] => true
  | p :: ps' =>
      pattern_marked p xs
      && passes_marked row name ps' (map (fill p (field row name p)) xs)
  end.

(** Two texts that differ at a place that both have: however they go on,
    neither begins with the other. *)
Fixpoint diverge (a b : jsstring) : bool :=
  match a, b with
  | c :: a', d :: b' => negb (c =? d)%N || diverge a' b'
  | _, _ => false
  end.

(** [pattern] cannot begin inside [x], whatever comes after [x ++ rest]. *)
Fixpoint begins_never (pattern x rest : jsstring) : bool :=
  match x with
  | [] => true
  | _ :: x' => diverge pattern (x ++ rest) && begins_never pattern x' rest
  end.

(** The text of the placeholder [p] cannot begin inside the text pieces of
    a fragment, whatever follows the fragment. *)
Fixpoint pattern_inside (p : placeholder) (xs : list piece) : bool :=
  match xs with
  | [] => true
  | Text x :: xs' =>
      begins_never (placeholder_text p) x (pieces_text xs')
      && pattern_inside p xs'
  | Hole _ :: xs' => pattern_inside p xs'
  end.

(** The text of the placeholder [p] cannot end inside [s], begun in
    whatever stands before [s]: [s] does not go on any beginning of it. *)
Definition pattern_across (p : placeholder) (s : jsstring) : bool :=
  forallb (fun k => diverge (drop k (placeholder_text p)) s)
    (seq 1 (length (placeholder_text p) - 1)).

(** At each replacement of [ps] the placeholder that is looked for is
    found in the fragment only where the fragment has it, whatever stands
    around the fragment. *)
Fixpoint passes_apart (row : Row) (name : jsstring) (ps : list placeholder)
    (xs : list piece) : bool :=
  match ps with
  | [] => true
  | p :: ps' =>
      pattern_inside p xs && pattern_across p (pieces_text xs)
      && passes_apart row name ps' (map (fill p (field row name p)) xs)
  end.

(** The fragment is taken literally for the record, whatever stands
    around it. *)
Definition fragment_literal (row : Row) (name : jsstring) (xs : list piece) : bool :=
  fields_verbatim row name xs && passes_apart row name passes xs.

(** Text without backtick. *)
Definition tick_free (s : jsstring) : bool :=
  forallb (fun c => negb (c =? 96)%N) s.

(** The pieces of the document around the pieces of a custom body. *)
Definition around (xs : list piece) : list piece :=
  Text (document_0 ++ emailStyles ++ document_1) :: xs ++ [Text document_2].

(** The template is taken literally for the record: what is left of it
    when the blocks are resolved goes through the six replacements with
    every field standing for itself and every placeholder found only where
    the template has it. *)
Definition literal_for (row : Row) (name : jsstring) (t : list part) : bool :=
  fields_verbatim row name (resolved (Link row) t)
  && passes_marked row name passes (resolved (Link row) t).

End Reading.

(** ** Templates and records with dollar signs, backticks and braces *)

Module Trials.

Import Syntax.

(** A company with a dollar sign in its name. *)
Definition erin : Row :=
  {| Name := Some (str "Erin Moss"); Email := Some (str "erin@example.org");
     Company := Some (str "AT$T"); Role := Some (str "Analyst");
     Link := Some (str "https://example.org/job") |}.

(** A custom body with a price in the text and backticks in the block. *)
Definition body_priced : jsstring :=
  str "<body><p>${Company} pays $5k</p>${Link ? `<code>`${Role}`</code> <a href='${Link}'>job</a>` : ''}</body>".

Definition fragment_priced : list piece :=
  [Text (str "<code>`"); Hole P_Role; Text (str "`</code> <a href='");
   Hole P_Link; Text (str "'>job</a>")].

Definition template_priced : list part :=
  [Piece (Text (str "<body><p>")); Piece (Hole P_Company);
   Piece (Text (str " pays $5k</p>")); IfLink fragment_priced;
   Piece (Text (str "</body>"))].

(** A record with placeholders in its fields that no later replacement
    looks for, and with backticks in its link. *)
Definition olga : Row :=
  {| Name := Some (str "Olga ${x}"); Email := Some (str "olga@example.org");
     Company := Some (str "${x} & ${firstName} Co"); Role := Some (str "${Name}");
     Link := Some (str "https://example.org/`job`") |}.

(** A name with a placeholder in it. *)
Definition nora : Row :=
  {| Name := Some (str "Nora ${Company}"); Email := Some (str "nora@example.org");
     Company := Some (str "Acme"); Role := Some (str "Analyst");
     Link := None |}.

Definition body_name : jsstring := str "<body><p>${Name}</p></body>".

Definition template_name : list part :=
  [Piece (Text (str "<body><p>")); Piece (Hole P_Name);
   Piece (Text (str "</p></body>"))].

(** A company in which the opening of a block is made up only when
    [${Link}] has given way to the empty text. *)
Definition fern : Row :=
  {| Name := Some (str "Fern Gray"); Email := Some (str "fern@example.org");
     Company := Some (str "${Li${Link}nk ? `Acme` : ''}");
     Role := Some (str "Analyst"); Link := None |}.

(** A company that ends in a dollar sign, and a body in which a brace
    follows the placeholder. *)
Definition gina : Row :=
  {| Name := Some (str "Gina Kent"); Email := Some (str "gina@example.org");
     Company := Some (str "Acme$"); Role := Some (str "Analyst");
     Link := None |}.

Definition body_joint : jsstring :=
  str "<body>${Link ? `a` : ''}${Company}{Link ? `x` : ''}</body>".

(** A name with a placeholder in it, for a block that has the name. *)
Definition nell : Row :=
  {| Name := Some (str "Nell ${Company}"); Email := Some (str "nell@example.org");
     Company := Some (str "Acme"); Role := Some (str "Analyst");
     Link := Some (str "https://example.org/job") |}.

Definition body_named : jsstring :=
  str "<body>${Link ? `<a href='${Link}'>${Name}</a>` : ''}</body>".

Definition fragment_named : list piece :=
  [Text (str "<a href='"); Hole P_Link; Text (str "'>"); Hole P_Name;
   Text (str "</a>")].

(** A body that has the name outside of its block. *)
Definition body_both : jsstring :=
  str "<body><p>${Name}</p>${Link ? `<a href='${Link}'>Job</a>` : ''}</body>".

Definition fragment_job : list piece :=
  [Text (str "<a href='"); Hole P_Link; Text (str "'>Job</a>")].

Definition template_both : list part :=
  [Piece (Text (str "<body><p>")); Piece (Hole P_Name);
   Piece (Text (str "</p>")); IfLink fragment_job; Piece (Text (str "</body>"))].

(** A role with the replacement pattern for the matched text in it. *)
Definition hana : Row :=
  {| Name := Some (str "Hana Lee"); Email := Some (str "hana@example.org");
     Company := Some (str "Acme"); Role := Some (str "R$&D");
     Link := Some (str "https://example.org/job") |}.

(** A block in whose fragment the closing text stands. *)
Definition body_closed_early : jsstring :=
  str "<body>${Link ? `a` : ''} or b` : ''}</body>".

Definition template_closed_early : list part :=
  [Piece (Text (str "<body>")); IfLink [Text (str "a` : ''} or b")];
   Piece (Text (str "</body>"))].

(** A body in which the opening of a block is written around [${Link}]. *)
Definition body_made_up : jsstring :=
  str "<body>${Link ? `a` : ''}${Li${Link}nk ? `x` : ''}</body>".

(** A body with the opening of a block in its text, and no closing text
    for it. *)
Definition body_unclosed : jsstring :=
  str "<body>${Link ? `a` : ''} ${Link ? `oops</body>".

(** The body of [Examples] that runs over two lines, as a template. *)
Definition template_two_lines : list part :=
  [Piece (Text (str "<body>"));
   IfLink [Text (str "<a href='"); Hole P_Link;
           Text (str "'>
  Job details</a>")];
   Piece (Text (str "</body>"))].

End Trials.

Import Template Server Syntax Props.
Import Examples.
Import Reading Trials.

(** ** Lemmas on the string functions *)

Section Replace.

Context (m : matcher) (r : replacer) (subject : jsstring).

Lemma replace_from_skip x s position :
  replace_from m r subject position (length x) (x ++ s)
  = replace_from m r subject (position + length x) 0 s.
Proof.
  revert position. induction x as [|c x IH]; intros position; simpl.
  - by rewrite Nat.add_0_r.
  - rewrite IH. f_equal. lia.
Qed.

Lemma replace_from_match x capture s position :
  x <> [] ->
  m (x ++ s) = Some (length x, capture) ->
  replace_from m r subject position 0 (x ++ s)
  = r subject position (length x) capture
      ++ replace_from m r subject (position + length x) 0 s.
Proof.
  destruct x as [|c x]; [done|]. intros _ Hm. simpl in *. rewrite Hm.
  rewrite replace_from_skip. do 2 f_equal. lia.
Qed.

Lemma no_dollar_cons c x :
  no_dollar (c :: x) = true <-> c <> 36%N /\ no_dollar x = true.
Proof.
  unfold no_dollar. simpl. rewrite andb_true_iff, negb_true_iff, N.eqb_neq. done.
Qed.

Lemma no_dollar_app x y :
  no_dollar (x ++ y) = no_dollar x && no_dollar y.
Proof. apply forallb_app. Qed.

Lemma replace_from_copy x s position :
  dollar_led m -> no_dollar x = true ->
  replace_from m r subject position 0 (x ++ s)
  = x ++ replace_from m r subject (position + length x) 0 s.
Proof.
  intros Hm. revert position. induction x as [|c x IH]; intros position Hx; simpl.
  - by rewrite Nat.add_0_r.
  - apply no_dollar_cons in Hx as [Hc Hx]. rewrite (Hm c _ Hc), IH by done.
    do 2 f_equal. f_equal. lia.
Qed.

End Replace.

Lemma starts_with_app p s : starts_with p (p ++ s) = true.
Proof. induction p as [|c p IH]; [done|]. simpl. by rewrite N.eqb_refl. Qed.

Lemma literal_dollar_led p : dollar_led (literal (36%N :: p)).
Proof.
  intros c s Hc. unfold literal. cbn [starts_with].
  destruct (N.eqb_spec 36 c) as [E|E]; [congruence|done].
Qed.

Lemma linkRegex_dollar_led : dollar_led linkRegex.
Proof.
  intros c s Hc. unfold linkRegex. 
  replace (starts_with link_open (c :: s)) with false; [done|].
  change link_open with (36%N :: tail link_open). cbn [starts_with].
  destruct (N.eqb_spec 36 c) as [E|E]; [congruence|done].
Qed.

(** ** Lemmas on the structured templates *)

Lemma placeholder_text_led p :
  exists x, placeholder_text p = 36%N :: x /\ no_dollar x = true.
Proof. destruct p; eexists; split; reflexivity. Qed.

Lemma replace_from_hole m r subject p s position :
  dollar_led m -> m (placeholder_text p ++ s) = None ->
  replace_from m r subject position 0 (placeholder_text p ++ s)
  = placeholder_text p
      ++ replace_from m r subject (position + length (placeholder_text p)) 0 s.
Proof.
  intros Hm Hp. destruct (placeholder_text_led p) as (x & E & Hx).
  rewrite E in *. simpl in *. rewrite Hp, replace_from_copy by done.
  do 3 f_equal. lia.
Qed.

Lemma pieces_text_cons x xs : pieces_text (x :: xs) = piece_text x ++ pieces_text xs.
Proof. done. Qed.

Lemma pieces_text_singleton x : pieces_text [x] = piece_text x.
Proof. unfold pieces_text. cbn [map concat]. apply app_nil_r. Qed.

Lemma pieces_text_app xs ys : pieces_text (xs ++ ys) = pieces_text xs ++ pieces_text ys.
Proof. unfold pieces_text. by rewrite map_app, concat_app. Qed.

Lemma template_text_cons y t : template_text (y :: t) = part_text y ++ template_text t.
Proof. done. Qed.

Lemma lazy_dots_unfold close s :
  lazy_dots close s
  = if starts_with close s then Some []
    else match s with
         | [] => None
         | c :: s' =>
             if is_line_terminator c then None
             else match lazy_dots close s' with
                  | Some content => Some (c :: content)
                  | None => None
                  end
         end.
Proof. by destruct s. Qed.

Lemma linkRegex_hole p s : linkRegex (placeholder_text p ++ s) = None.
Proof. by destruct p. Qed.

Lemma resolved_cons Link y t :
  resolved Link (y :: t)
  = match y with
    | Piece x => [x]
    | IfLink fragment => if truthy Link then fragment else []
    end ++ resolved Link t.
Proof. done. Qed.

Lemma literal_placeholder_led p : dollar_led (literal (placeholder_text p)).
Proof.
  destruct (placeholder_text_led p) as (x & -> & _). apply literal_dollar_led.
Qed.

Lemma literal_self p s :
  literal p (p ++ s) = Some (length p, []).
Proof. unfold literal. by rewrite starts_with_app. Qed.

Lemma literal_other p q s :
  q <> p -> literal (placeholder_text p) (placeholder_text q ++ s) = None.
Proof. by destruct p, q. Qed.

Lemma placeholder_text_nonempty p : placeholder_text p <> [].
Proof. by destruct p. Qed.

Lemma fill_all row name x :
  fill P_Link (field row name P_Link)
    (fill P_Role (field row name P_Role)
      (fill P_Email (field row name P_Email)
        (fill P_Company (field row name P_Company)
          (fill P_Name (field row name P_Name)
            (fill P_firstName (field row name P_firstName) x)))))
  = Text (piece_value row name x).
Proof. by destruct x as [t|[]]. Qed.

Lemma pieces_text_values row name xs :
  pieces_text (map (fun x => Text (piece_value row name x)) xs)
  = pieces_value row name xs.
Proof.
  unfold pieces_text, pieces_value. by rewrite map_map.
Qed.

(** ** The first name *)

Lemma split_nonempty sep s : split sep s <> [].
Proof.
  destruct s as [|c s]; [done|]. simpl.
  destruct (c =? sep)%N; [done|]. by destruct (split sep s).
Qed.

Lemma first_name_shape name :
  exists first,
    first_name name = Some first
    /\ (32%N ∉ first)
    /\ (name = first \/ exists rest, name = first ++ 32%N :: rest).
Proof.
  unfold first_name. induction name as [|c name (first & E & Hf & Hn)].
  - exists []. split_and!; [done|by apply not_elem_of_nil|by left].
  - simpl. destruct (N.eqb_spec c 32) as [->|Hc].
    + exists []. split_and!; [done|by apply not_elem_of_nil|right; by exists name].
    + destruct (split 32 name) as [|p ps]; [done|]. simpl in E.
      injection E as ->. exists (c :: first). split_and!; [done| |].
      * rewrite not_elem_of_cons. split; [congruence|done].
      * destruct Hn as [->|(rest & ->)]; [by left|right; by exists rest].
Qed.

(** ** The value of a template *)

Lemma pieces_value_app row name xs ys :
  pieces_value row name (xs ++ ys)
  = pieces_value row name xs ++ pieces_value row name ys.
Proof. unfold pieces_value. by rewrite map_app, concat_app. Qed.

Lemma resolved_value row name t :
  pieces_value row name (resolved (Link row) t) = template_value row name t.
Proof.
  induction t as [|y t IH]; [done|].
  rewrite resolved_cons, pieces_value_app, IH.
  unfold template_value at 2. cbn [map concat]. f_equal.
  destruct y as [x|f]; simpl.
  - unfold pieces_value. simpl. apply app_nil_r.
  - by destruct (truthy (Link row)).
Qed.

Lemma template_text_app t u :
  template_text (t ++ u) = template_text t ++ template_text u.
Proof. unfold template_text. by rewrite map_app, concat_app. Qed.

(** The text before and after the custom body is literal text. *)
Lemma document_template t :
  document (template_text t)
  = template_text
      (Piece (Text (document_0 ++ emailStyles ++ document_1)) :: t
       ++ [Piece (Text document_2)]).
Proof.
  unfold document. rewrite template_text_cons, template_text_app.
  cbn [part_text piece_text]. unfold template_text at 3. cbn [map concat].
  cbn [part_text piece_text]. by rewrite app_nil_r, <- !app_assoc.
Qed.

Lemma starts_with_prefix b a :
  starts_with b a = true -> exists post, a = b ++ post.
Proof.
  revert a. induction b as [|c b IH]; intros a; [by exists a|].
  destruct a as [|d a]; [done|]. simpl.
  intros [->%N.eqb_eq [post ->]%IH]%andb_true_iff. by exists post.
Qed.

Lemma occurs_contains b a : occurs b a = true -> contains a b.
Proof.
  induction a as [|c a IH]; simpl.
  - rewrite orb_false_r. intros [post ->]%starts_with_prefix. by exists [], post.
  - intros [[post ->]%starts_with_prefix|[pre [post ->]]%IH]%orb_true_iff.
    + by exists [], post.
    + by exists (c :: pre), post.
Qed.

Lemma contains_app_r a b c : contains a c -> contains (b ++ a) c.
Proof. intros (pre & post & ->). exists (b ++ pre), post. by rewrite <- app_assoc. Qed.

Lemma contains_app_l a b c : contains a c -> contains (a ++ b) c.
Proof. intros (pre & post & ->). exists pre, (post ++ b). by rewrite <- !app_assoc. Qed.

Lemma contains_refl a : contains a a.
Proof. exists [], []. by rewrite app_nil_r. Qed.

Lemma template_value_cons row name y t :
  template_value row name (y :: t)
  = part_value row name y ++ template_value row name t.
Proof. done. Qed.

Lemma template_value_block row name t f :
  truthy (Link row) = true -> IfLink f ∈ t ->
  contains (template_value row name t) (pieces_value row name f).
Proof.
  intros HL. induction t as [|y t IH]; [by intros ?%elem_of_nil|].
  rewrite template_value_cons. intros [<-|Hf]%elem_of_cons.
  - apply contains_app_l. simpl. rewrite HL. apply contains_refl.
  - by apply contains_app_r, IH.
Qed.

Lemma template_value_without_blocks row name t :
  truthy (Link row) = false ->
  template_value row name t = template_value row name (without_blocks t).
Proof.
  intros HL. induction t as [|[x|f] t IH]; [done| |].
  - cbn [without_blocks]. by rewrite !template_value_cons, IH.
  - cbn [without_blocks]. rewrite template_value_cons, <- IH. simpl. by rewrite HL.
Qed.

Lemma builtin_plain :
  no_dollar builtin_0 = true /\ no_dollar builtin_1 = true
  /\ no_dollar builtin_2 = true /\ no_dollar builtin_3 = true
  /\ no_dollar builtin_4 = true /\ no_dollar builtin_5 = true.
Proof. repeat split; vm_compute; reflexivity. Qed.

Lemma truthy_false_or_empty v : truthy v = false -> or_empty v = [].
Proof. by destruct v as [[|]|]. Qed.

(** ** Text in which a pattern does not begin *)

Section Free.

Context (m : matcher) (r : replacer) (subject : jsstring).

Lemma replace_from_free x : forall s position,
  (forall k, k < length x -> m (drop k (x ++ s)) = None) ->
  replace_from m r subject position 0 (x ++ s)
  = x ++ replace_from m r subject (position + length x) 0 s.
Proof.
  induction x as [|c x IH]; intros s position H; simpl.
  - by rewrite Nat.add_0_r.
  - pose proof (H 0 ltac:(simpl; lia)) as H0. cbn [drop app] in H0.
    rewrite H0. f_equal. rewrite IH.
    + do 2 f_equal. lia.
    + intros k Hk. apply (H (S k)). simpl. lia.
Qed.

End Free.

Lemma begins_in_false pattern x rest :
  begins_in pattern x rest = false ->
  forall k, k < length x -> starts_with pattern (drop k (x ++ rest)) = false.
Proof.
  induction x as [|c x IH]; intros H k Hk; [simpl in Hk; lia|].
  cbn [begins_in] in H. apply orb_false_iff in H as [H0 H].
  destruct k as [|k]; [exact H0|]. cbn [app drop]. apply IH; [exact H|].
  simpl in Hk. lia.
Qed.

Lemma begins_in_plain pattern x rest :
  no_dollar x = true -> begins_in (36%N :: pattern) x rest = false.
Proof.
  induction x as [|c x IH]; [done|]. intros [Hc Hx]%no_dollar_cons.
  cbn [begins_in app starts_with]. rewrite IH by exact Hx.
  destruct (N.eqb_spec 36 c) as [E|E]; [congruence|reflexivity].
Qed.

(** What follows begins with a code unit that is not in the pattern. *)
Lemma starts_with_app_other pattern c d : forall u,
  forallb (fun a => negb (a =? c)%N) pattern = true ->
  starts_with pattern (u ++ c :: d) = starts_with pattern u.
Proof.
  induction pattern as [|a pattern IH]; intros u H; [by destruct u|].
  cbn [forallb] in H. apply andb_true_iff in H as [Ha H].
  apply negb_true_iff in Ha.
  destruct u as [|b u]; cbn [app starts_with].
  - by rewrite Ha.
  - by rewrite IH.
Qed.

Lemma begins_in_app_other pattern c d x rest :
  forallb (fun a => negb (a =? c)%N) pattern = true ->
  begins_in pattern x (rest ++ c :: d) = begins_in pattern x rest.
Proof.
  intros H. induction x as [|b x IH]; [done|]. cbn [begins_in].
  by rewrite IH, app_assoc, starts_with_app_other.
Qed.

Lemma occurs_app pattern a b :
  occurs pattern (a ++ b) = begins_in pattern a b || occurs pattern b.
Proof.
  induction a as [|c a IH]; [done|]. cbn [app occurs begins_in].
  by rewrite IH, orb_assoc.
Qed.

Lemma occurs_plain pattern a b :
  no_dollar a = true ->
  occurs (36%N :: pattern) (a ++ b) = occurs (36%N :: pattern) b.
Proof. intros Ha. by rewrite occurs_app, begins_in_plain. Qed.

(** A field between texts: the pattern is in the whole only if it is in
    the field or in what follows the text after it. *)
Lemma occurs_field pattern f c d rest :
  forallb (fun a => negb (a =? c)%N) (36%N :: pattern) = true ->
  no_dollar (c :: d) = true ->
  occurs (36%N :: pattern) (f ++ (c :: d) ++ rest)
  = occurs (36%N :: pattern) f || occurs (36%N :: pattern) rest.
Proof.
  intros Hc Hd. rewrite occurs_app, occurs_plain by exact Hd. f_equal.
  rewrite <- (app_nil_r f) at 2. rewrite occurs_app.
  cbn [occurs starts_with]. rewrite orb_false_r.
  change ((c :: d) ++ rest) with ([] ++ c :: (d ++ rest)).
  by apply begins_in_app_other.
Qed.

Lemma verbatim_GetSubstitution matched before after v :
  verbatim v = true -> GetSubstitution matched before after v = v.
Proof.
  induction v as [|c v IH]; [done|]. cbn [verbatim GetSubstitution].
  intros [Hc Hv]%andb_true_iff. specialize (IH Hv).
  destruct (c =? 36)%N; [|by rewrite IH].
  destruct v as [|d v]; [done|].
  apply negb_true_iff in Hc. repeat apply orb_false_iff in Hc as [Hc ?].
  rewrite Hc. by repeat match goal with H : (_ =? _)%N = false |- _ => rewrite H; clear H end; rewrite IH.
Qed.

Lemma by_string_verbatim v subject position len capture :
  verbatim v = true -> by_string v subject position len capture = v.
Proof. apply verbatim_GetSubstitution. Qed.

(** ** Code units that the replacements do not bring in *)

Section Kept.

Context (P : N -> bool).

Lemma GetSubstitution_all matched before after :
  forallb P matched = true -> forallb P before = true ->
  forallb P after = true ->
  forall n v, length v <= n -> forallb P v = true ->
  forallb P (GetSubstitution matched before after v) = true.
Proof.
  intros Hm Hb Ha. induction n as [|n IH]; intros v Hn Hv.
  - destruct v; [done|simpl in Hn; lia].
  - destruct v as [|c r]; [done|]. cbn [GetSubstitution].
    cbn [forallb] in Hv. apply andb_true_iff in Hv as [Hc Hr].
    simpl in Hn.
    assert (forallb P (GetSubstitution matched before after r) = true) as Hrest
      by (apply IH; [lia|exact Hr]).
    destruct (c =? 36)%N; [|by cbn [forallb]; rewrite Hc, Hrest].
    destruct r as [|d r']; [by cbn [forallb]; rewrite Hc|].
    cbn [forallb] in Hr. apply andb_true_iff in Hr as [Hd Hr'].
    simpl in Hn.
    assert (forallb P (GetSubstitution matched before after r') = true) as Hrest'
      by (apply IH; [lia|exact Hr']).
    destruct (N.eqb_spec d 36) as [->|_];
      [by cbn [forallb]; rewrite Hd, Hrest'|].
    destruct (d =? 38)%N; [by rewrite forallb_app, Hm, Hrest'|].
    destruct (d =? 96)%N; [by rewrite forallb_app, Hb, Hrest'|].
    destruct (d =? 39)%N; [by rewrite forallb_app, Ha, Hrest'|].
    by cbn [forallb]; rewrite Hc, Hrest.
Qed.

Lemma forallb_take k s : forallb P s = true -> forallb P (take k s) = true.
Proof.
  revert k. induction s as [|c s IH]; intros [|k]; try done. cbn [take forallb].
  intros [Hc Hs]%andb_true_iff. by rewrite Hc, IH.
Qed.

Lemma forallb_drop k s : forallb P s = true -> forallb P (drop k s) = true.
Proof.
  revert k. induction s as [|c s IH]; intros [|k]; try done. cbn [drop forallb].
  intros [Hc Hs]%andb_true_iff. by apply IH.
Qed.

Lemma replace_from_all m v subject :
  forallb P subject = true -> forallb P v = true ->
  forall s position skip,
    forallb P s = true ->
    forallb P (replace_from m (by_string v) subject position skip s) = true.
Proof.
  intros Hsubject Hv. induction s as [|c s IH]; intros position skip Hs; [done|].
  cbn [forallb] in Hs. apply andb_true_iff in Hs as [Hc Hs].
  cbn [replace_from]. destruct skip as [|k]; [|by apply IH].
  destruct (m (c :: s)) as [[[|n] capture]|].
  - cbn [forallb]. by rewrite Hc, IH.
  - rewrite forallb_app, IH, andb_true_r by exact Hs.
    unfold by_string.
    apply (GetSubstitution_all _ _ _
             (forallb_take _ _ (forallb_drop position _ Hsubject))
             (forallb_take _ _ Hsubject) (forallb_drop _ _ Hsubject)
             (length v) v (Nat.le_refl _) Hv).
  - cbn [forallb]. by rewrite Hc, IH.
Qed.

Lemma replace_all_all pattern v s :
  forallb P v = true -> forallb P s = true ->
  forallb P (replace_all pattern v s) = true.
Proof.
  intros Hv Hs. unfold replace_all, replace_global. by apply replace_from_all.
Qed.

Lemma occurs_all pattern s :
  forallb P s = true -> forallb P pattern = false -> occurs pattern s = false.
Proof.
  intros Hs Hp. destruct (occurs pattern s) eqn:E; [|done].
  apply occurs_contains in E as (pre & post & ->).
  rewrite !forallb_app, Hp in Hs. by rewrite andb_false_r in Hs.
Qed.

End Kept.

(** ** The two passes on a template that is read the way it is written *)

Lemma pieces_value_cons row name x xs :
  pieces_value row name (x :: xs)
  = piece_value row name x ++ pieces_value row name xs.
Proof. reflexivity. Qed.

Lemma starts_with_close_late x s :
  x <> [] -> starts_with link_close (x ++ link_close ++ s) = true ->
  starts_with link_close x = true.
Proof.
  assert (link_close = [96; 32; 58; 32; 39; 39; 125]%N) as -> by reflexivity.
  destruct x as [|c1 [|c2 [|c3 [|c4 [|c5 [|c6 [|c7 x]]]]]]]; [done|..]; intros _;
    cbn; rewrite ?andb_false_r; try discriminate.
  by rewrite !andb_true_r.
Qed.

Lemma lazy_dots_closed x s :
  one_line x = true -> occurs link_close x = false ->
  lazy_dots link_close (x ++ link_close ++ s) = Some x.
Proof.
  induction x as [|c x IH]; intros Hl Hx; rewrite lazy_dots_unfold.
  - by rewrite app_nil_l, starts_with_app.
  - cbn [occurs] in Hx. apply orb_false_iff in Hx as [Hc Hx].
    cbn [one_line forallb] in Hl. apply andb_true_iff in Hl as [Hn Hl].
    apply negb_true_iff in Hn.
    destruct (starts_with link_close ((c :: x) ++ link_close ++ s)) eqn:E.
    + apply starts_with_close_late in E; [congruence|done].
    + cbn [app]. rewrite Hn. fold (one_line x) in Hl. by rewrite IH.
Qed.

Lemma linkRegex_closed x s :
  one_line x = true -> occurs link_close x = false ->
  linkRegex ((link_open ++ x ++ link_close) ++ s)
  = Some (length (link_open ++ x ++ link_close), x).
Proof.
  intros Hl Hx. unfold linkRegex. rewrite <- !app_assoc.
  rewrite starts_with_app, drop_app_length, lazy_dots_closed by done.
  by rewrite !length_app.
Qed.

Lemma openers_marked_app t c d :
  forallb (fun a => negb (a =? c)%N) link_open = true ->
  no_dollar (c :: d) = true ->
  openers_marked t = true ->
  openers_marked (t ++ [Piece (Text (c :: d))]) = true.
Proof.
  intros Hc Hd. induction t as [|y t IH]; intros Ht.
  - cbn [app openers_marked]. change link_open with (36%N :: tail link_open).
    by rewrite begins_in_plain.
  - destruct y as [[x|p]|f]; cbn [app openers_marked] in *; [|by apply IH..].
    apply andb_true_iff in Ht as [Hx Ht]. rewrite IH, andb_true_r by exact Ht.
    rewrite template_text_app. unfold template_text at 2.
    cbn [map concat part_text piece_text]. rewrite app_nil_r.
    by rewrite begins_in_app_other.
Qed.

Lemma resolve_marked Link subject t : forall position,
  well_written t = true ->
  replace_from linkRegex (link_replacer Link) subject position 0
    (template_text t)
  = pieces_text (resolved Link t).
Proof.
  unfold well_written.
  induction t as [|y t IH]; intros position [Hb Ho]%andb_true_iff; [done|].
  cbn [blocks_closed forallb] in Hb. apply andb_true_iff in Hb as [Hy Hb].
  fold (blocks_closed t) in Hb.
  rewrite template_text_cons, resolved_cons, pieces_text_app.
  destruct y as [[x|p]|f]; cbn [part_text piece_text openers_marked] in *.
  - apply andb_true_iff in Ho as [Hx Ho]. apply negb_true_iff in Hx.
    rewrite replace_from_free.
    + rewrite IH by (by rewrite Hb, Ho). by rewrite pieces_text_singleton.
    + intros k Hk. unfold linkRegex.
      by rewrite (begins_in_false _ _ _ Hx k Hk).
  - rewrite replace_from_hole by auto using linkRegex_dollar_led, linkRegex_hole.
    rewrite IH by (by rewrite Hb, Ho). by rewrite pieces_text_singleton.
  - apply andb_true_iff in Hy as [Hl Hc]. apply negb_true_iff in Hc.
    rewrite (replace_from_match _ _ _ _ (pieces_text f)); first last.
    + by apply linkRegex_closed.
    + change link_open with (36%N :: tail link_open). done.
    + rewrite IH by (by rewrite Hb, Ho). f_equal. unfold link_replacer.
      by destruct (truthy Link).
Qed.

(** The text around the custom body: no dollar sign in it, and the text
    after the body begins with a line feed. *)
Lemma document_joints :
  no_dollar (document_0 ++ emailStyles ++ document_1) = true
  /\ (exists d, document_2 = 10%N :: d)
  /\ no_dollar document_2 = true.
Proof.
  split_and!; try (vm_compute; reflexivity).
  eexists. vm_compute. reflexivity.
Qed.

Lemma line_feed_apart :
  forallb (fun a => negb (a =? 10)%N) link_open = true
  /\ forall p, forallb (fun a => negb (a =? 10)%N) (placeholder_text p) = true.
Proof. split; [|intros []]; vm_compute; reflexivity. Qed.

Lemma document_pieces xs : document (pieces_text xs) = pieces_text (around xs).
Proof.
  unfold document, around.
  rewrite pieces_text_cons, pieces_text_app, pieces_text_singleton.
  cbn [piece_text]. by rewrite <- !app_assoc.
Qed.

(** On a well-written template the first pass puts the fragment, or
    nothing, for every block, whatever the record. *)
Lemma resolve_link_document Link t :
  well_written t = true ->
  resolve_link Link (document (template_text t))
  = document (pieces_text (resolved Link t)).
Proof.
  intros Ht. destruct document_joints as (H0 & (d & E) & H2).
  destruct line_feed_apart as [Hn _].
  rewrite document_template, document_pieces.
  unfold resolve_link, replace_global. rewrite resolve_marked.
  - f_equal. rewrite resolved_cons. unfold around. f_equal.
    unfold resolved. rewrite map_app, concat_app. cbn [map concat].
    by rewrite app_nil_r.
  - unfold well_written in *. apply andb_true_iff in Ht as [Hb Ho].
    apply andb_true_iff. split.
    + unfold blocks_closed in *. cbn [forallb]. rewrite forallb_app, Hb. done.
    + cbn [openers_marked]. change link_open with (36%N :: tail link_open) at 1.
      rewrite begins_in_plain by exact H0. cbn [negb andb].
      rewrite E in *. by apply openers_marked_app.
Qed.

Lemma custom_resolved body row name t :
  trim body = template_text t -> well_written t = true ->
  custom body row name
  = replace_variables (first_name name) (Some name) (Company row) (Email row)
      (Role row) (Link row)
      (document (pieces_text (resolved (Link row) t))).
Proof.
  intros Hbody Ht. unfold custom. by rewrite Hbody, resolve_link_document.
Qed.

Lemma replace_pieces_marked row name p subject xs : forall position,
  pattern_marked p xs = true ->
  fields_verbatim row name xs = true ->
  replace_from (literal (placeholder_text p)) (by_string (field row name p))
    subject position 0 (pieces_text xs)
  = pieces_text (map (fill p (field row name p)) xs).
Proof.
  induction xs as [|x xs IH]; intros position Hp Hf; [done|].
  cbn [fields_verbatim forallb] in Hf. apply andb_true_iff in Hf as [Hx Hf].
  fold (fields_verbatim row name xs) in Hf.
  cbn [map]. rewrite !pieces_text_cons.
  destruct x as [t|q]; cbn [piece_text fill pattern_marked] in *.
  - apply andb_true_iff in Hp as [Ht Hp]. apply negb_true_iff in Ht.
    rewrite replace_from_free.
    + by rewrite IH.
    + intros k Hk. unfold literal.
      by rewrite (begins_in_false _ _ _ Ht k Hk).
  - destruct (decide (q = p)) as [->|Hq]; cbn [piece_text].
    + rewrite (replace_from_match _ _ _ _ [])
        by auto using literal_self, placeholder_text_nonempty.
      rewrite by_string_verbatim by done. by rewrite IH.
    + rewrite replace_from_hole
        by auto using literal_placeholder_led, literal_other.
      by rewrite IH.
Qed.

Lemma replace_all_marked row name p xs :
  pattern_marked p xs = true ->
  fields_verbatim row name xs = true ->
  replace_all (placeholder_text p) (field row name p) (pieces_text xs)
  = pieces_text (map (fill p (field row name p)) xs).
Proof.
  intros Hp Hf. unfold replace_all, replace_global. by apply replace_pieces_marked.
Qed.

Lemma fill_verbatim row name p v xs :
  fields_verbatim row name xs = true ->
  fields_verbatim row name (map (fill p v) xs) = true.
Proof.
  induction xs as [|x xs IH]; [done|]. cbn [map fields_verbatim forallb].
  intros [Hx Hf]%andb_true_iff. apply andb_true_iff. split; [|by apply IH].
  destruct x as [t|q]; [done|]. cbn [fill]. by destruct (decide (q = p)).
Qed.

(** The chain of six replacements on a text in which every placeholder is
    found only where the template has it. *)
Lemma replace_variables_marked row name xs :
  fields_verbatim row name xs = true ->
  passes_marked row name passes xs = true ->
  replace_variables (first_name name) (Some name) (Company row) (Email row)
    (Role row) (Link row) (pieces_text xs)
  = pieces_value row name xs.
Proof.
  intros Hf Hp. unfold replace_variables.
  change (str "${firstName}") with (placeholder_text P_firstName).
  change (str "${Name}") with (placeholder_text P_Name).
  change (str "${Company}") with (placeholder_text P_Company).
  change (str "${Email}") with (placeholder_text P_Email).
  change (str "${Role}") with (placeholder_text P_Role).
  change (str "${Link}") with (placeholder_text P_Link).
  change (to_string (first_name name)) with (field row name P_firstName).
  change (to_string (Some name)) with (field row name P_Name).
  change (to_string (Company row)) with (field row name P_Company).
  change (to_string (Email row)) with (field row name P_Email).
  change (to_string (Role row)) with (field row name P_Role).
  change (or_empty (Link row)) with (field row name P_Link).
  cbn [passes passes_marked] in Hp.
  repeat apply andb_true_iff in Hp as [? Hp].
  rewrite !replace_all_marked by auto 10 using fill_verbatim.
  rewrite !map_map. rewrite <- pieces_text_values. f_equal.
  apply map_ext. intros x. apply fill_all.
Qed.

Lemma pattern_marked_around p xs :
  pattern_marked p xs = true -> pattern_marked p (around xs) = true.
Proof.
  intros Hp. destruct document_joints as (H0 & (d & E) & H2).
  destruct line_feed_apart as [_ Hn]. specialize (Hn p).
  destruct (placeholder_text_led p) as (pattern & Ep & _).
  unfold around. cbn [pattern_marked]. rewrite Ep at 1.
  rewrite begins_in_plain by exact H0. cbn [negb andb].
  rewrite E in *. clear H0 E. induction xs as [|x xs IH].
  - cbn [app pattern_marked]. rewrite Ep. by rewrite begins_in_plain.
  - destruct x as [x|q]; cbn [app pattern_marked] in *; [|by apply IH].
    apply andb_true_iff in Hp as [Hx Hp]. rewrite IH, andb_true_r by exact Hp.
    rewrite pieces_text_app, pieces_text_singleton. cbn [piece_text].
    by rewrite begins_in_app_other.
Qed.

Lemma fill_around p v xs : map (fill p v) (around xs) = around (map (fill p v) xs).
Proof. unfold around. cbn [map fill]. by rewrite map_app. Qed.

Lemma passes_marked_around row name ps : forall xs,
  passes_marked row name ps xs = true ->
  passes_marked row name ps (around xs) = true.
Proof.
  induction ps as [|p ps IH]; intros xs; [done|]. cbn [passes_marked].
  intros [Hp Hps]%andb_true_iff.
  by rewrite pattern_marked_around, fill_around, IH.
Qed.

Lemma around_value row name xs :
  pieces_value row name (around xs) = document (pieces_value row name xs).
Proof.
  unfold around, document.
  rewrite pieces_value_cons, pieces_value_app. cbn [piece_value].
  unfold pieces_value at 2. cbn [map concat piece_value].
  by rewrite app_nil_r, <- !app_assoc.
Qed.

(** On a well-written template that is taken literally for the record the
    two passes of the custom variant give the value of the template. *)
Lemma custom_value body row name t :
  trim body = template_text t -> well_written t = true ->
  literal_for row name t = true ->
  custom body row name = document (template_value row name t).
Proof.
  intros Hbody Ht Hr. unfold literal_for in Hr.
  apply andb_true_iff in Hr as [Hf Hp].
  rewrite (custom_resolved body row name t Hbody Ht), document_pieces.
  rewrite replace_variables_marked.
  - by rewrite around_value, resolved_value.
  - unfold around, fields_verbatim in *. cbn [forallb].
    rewrite forallb_app, Hf. done.
  - by apply passes_marked_around.
Qed.

(** The opening of a block is in the document only if it is in the body. *)
Lemma occurs_document v :
  occurs link_open (document v) = occurs link_open v.
Proof.
  destruct document_joints as (H0 & (d & E) & H2).
  destruct line_feed_apart as [Hn _].
  unfold document.
  replace (document_0 ++ emailStyles ++ document_1 ++ v ++ document_2)
    with ((document_0 ++ emailStyles ++ document_1) ++ v ++ (10%N :: d) ++ [])
    by (rewrite app_nil_r, <- E, <- !app_assoc; reflexivity).
  change link_open with (36%N :: tail link_open).
  rewrite occurs_plain by exact H0.
  rewrite occurs_field; [apply orb_false_r|exact Hn|rewrite <- E; exact H2].
Qed.

(** The texts of the builtin template that follow a field begin with a
    code unit that is not in the opening of a block. *)
Lemma builtin_joints :
  (exists c d, builtin_1 = c :: d
               /\ forallb (fun a => negb (a =? c)%N) link_open = true)
  /\ (exists c d, builtin_2 = c :: d
                  /\ forallb (fun a => negb (a =? c)%N) link_open = true)
  /\ (exists c d, builtin_3 = c :: d
                  /\ forallb (fun a => negb (a =? c)%N) link_open = true)
  /\ (exists c d, builtin_5 = c :: d
                  /\ forallb (fun a => negb (a =? c)%N) link_open = true).
Proof.
  repeat split; eexists _, _; (split; [vm_compute; reflexivity|reflexivity]).
Qed.

(** The opening of a block is in the builtin document without its button
    only if a field brings it. *)
Lemma builtin_opener first Role Company :
  occurs link_open
    (builtin_0 ++ to_string first ++ builtin_1 ++ to_string Role
       ++ builtin_2 ++ to_string Company ++ builtin_3
       ++ builtin_4 ++ to_string Company ++ builtin_5)
  = occurs link_open (to_string first) || occurs link_open (to_string Role)
    || occurs link_open (to_string Company).
Proof.
  destruct builtin_plain as (H0 & H1 & H2 & H3 & H4 & H5).
  destruct builtin_joints
    as ((c1 & d1 & E1 & J1) & (c2 & d2 & E2 & J2) & (c3 & d3 & E3 & J3)
        & (c5 & d5 & E5 & J5)).
  rewrite <- (app_nil_r builtin_5).
  rewrite E1, E2, E3, E5 in *.
  change link_open with (36%N :: tail link_open) in *.
  rewrite occurs_plain by exact H0.
  rewrite !occurs_field by assumption.
  rewrite occurs_plain by exact H4.
  rewrite occurs_field by assumption.
  cbn [occurs starts_with].
  destruct (occurs _ (to_string first)), (occurs _ (to_string Role)),
    (occurs _ (to_string Company)); reflexivity.
Qed.

Lemma resolved_without_blocks Link t :
  truthy Link = false -> resolved Link t = resolved None (without_blocks t).
Proof.
  intros HL. induction t as [|[x|f] t IH]; [done| |].
  - cbn [without_blocks]. by rewrite !resolved_cons, IH.
  - cbn [without_blocks]. by rewrite resolved_cons, HL, IH.
Qed.

Lemma document_tick_free v : tick_free v = true -> tick_free (document v) = true.
Proof.
  intros Hv. unfold tick_free, document in *. rewrite !forallb_app, Hv.
  assert (forallb (fun c => negb (c =? 96)%N) document_0 = true) as ->
    by (vm_compute; reflexivity).
  assert (forallb (fun c => negb (c =? 96)%N) emailStyles = true) as ->
    by (vm_compute; reflexivity).
  assert (forallb (fun c => negb (c =? 96)%N) document_1 = true) as ->
    by (vm_compute; reflexivity).
  assert (forallb (fun c => negb (c =? 96)%N) document_2 = true) as ->
    by (vm_compute; reflexivity).
  reflexivity.
Qed.

(** The six replacements bring in no backtick when the text and the fields
    have none: the opening of a block is not in what they leave. *)
Lemma replace_variables_tick_free row name s :
  (forall p, tick_free (field row name p) = true) ->
  tick_free s = true ->
  occurs link_open
    (replace_variables (first_name name) (Some name) (Company row) (Email row)
       (Role row) (Link row) s)
  = false.
Proof.
  intros Hf Hs. apply (occurs_all (fun c => negb (c =? 96)%N)); [|reflexivity].
  unfold replace_variables.
  pose proof (Hf P_firstName) as H1. pose proof (Hf P_Name) as H2.
  pose proof (Hf P_Company) as H3. pose proof (Hf P_Email) as H4.
  pose proof (Hf P_Role) as H5. pose proof (Hf P_Link) as H6.
  cbn [field] in *. unfold tick_free in *.
  by repeat apply replace_all_all.
Qed.

(** ** A fragment among text that is not known *)

Lemma diverge_starts_with pattern u : forall s,
  diverge pattern u = true -> starts_with pattern (u ++ s) = false.
Proof.
  revert u. induction pattern as [|a pattern IH]; intros [|b u] s; try done.
  cbn [diverge app starts_with]. intros [H|H]%orb_true_iff.
  - apply negb_true_iff in H. by rewrite H.
  - by rewrite IH, andb_false_r.
Qed.

Lemma begins_never_false pattern x rest s :
  begins_never pattern x rest = true ->
  forall k, k < length x -> starts_with pattern (drop k (x ++ rest ++ s)) = false.
Proof.
  induction x as [|c x IH]; intros H k Hk; [simpl in Hk; lia|].
  cbn [begins_never] in H. apply andb_true_iff in H as [H0 H].
  destruct k as [|k].
  - cbn [drop]. rewrite app_assoc. by apply diverge_starts_with.
  - cbn [app drop]. apply IH; [exact H|]. simpl in Hk. lia.
Qed.

(** A pattern that begins in [u] and is longer than [u] goes on in [s]. *)
Lemma starts_with_over pattern : forall u s,
  starts_with pattern (u ++ s) = true -> length u <= length pattern ->
  starts_with (drop (length u) pattern) s = true.
Proof.
  induction pattern as [|a pattern IH]; intros [|b u] s H Hl.
  - reflexivity.
  - simpl in Hl. lia.
  - exact H.
  - cbn [app starts_with] in H. apply andb_true_iff in H as [_ H].
    cbn [length drop]. apply IH; [exact H|]. simpl in Hl. lia.
Qed.

Section Prefix.

Context (m : matcher) (r : replacer) (subject : jsstring).

(** No match that begins in [a] ends after it: the replacements in [a]
    leave what follows [a] to be gone through from its beginning. *)
Lemma replace_from_prefix n : forall a s position,
  length a <= n ->
  (forall k len capture,
     k < length a -> m (drop k (a ++ s)) = Some (len, capture) ->
     k + len <= length a) ->
  exists a',
    replace_from m r subject position 0 (a ++ s)
    = a' ++ replace_from m r subject (position + length a) 0 s.
Proof.
  induction n as [|n IH]; intros a s position Hn H.
  - destruct a; [|simpl in Hn; lia]. exists []. cbn [app length].
    by rewrite Nat.add_0_r.
  - destruct a as [|c a].
    { exists []. cbn [app length]. by rewrite Nat.add_0_r. }
    simpl in Hn. cbn [app replace_from].
    destruct (m (c :: a ++ s)) as [[[|len] capture]|] eqn:E.
    + destruct (IH a s (S position) ltac:(lia)) as [a' Ha'].
      { intros k len capture' Hk Hm.
        pose proof (H (S k) len capture' ltac:(simpl; lia) Hm). simpl in *. lia. }
      exists (c :: a'). rewrite Ha'.
      replace (position + length (c :: a)) with (S position + length a)
        by (simpl; lia).
      reflexivity.
    + pose proof (H 0 (S len) capture ltac:(simpl; lia) E) as Hlen.
      simpl in Hlen.
      assert (exists x y, a = x ++ y /\ length x = len) as (x & y & -> & <-).
      { exists (take len a), (drop len a). split; [by rewrite take_drop|].
        rewrite length_take. lia. }
      rewrite length_app in Hn. rewrite <- app_assoc, replace_from_skip.
      destruct (IH y s (S position + length x) ltac:(lia)) as [a' Ha'].
      { intros k len' capture' Hk Hm.
        pose proof (H (S (length x + k)) len' capture') as Hk'.
        cbn [length drop app] in Hk'. rewrite length_app in Hk'.
        rewrite <- app_assoc, <- drop_drop, drop_app_length in Hk'.
        specialize (Hk' ltac:(lia) Hm). lia. }
      exists (r subject position (S (length x)) capture ++ a'). rewrite Ha'.
      rewrite <- app_assoc.
      replace (S position + length x + length y)
        with (position + length (c :: x ++ y))
        by (cbn [length]; rewrite length_app; lia).
      reflexivity.
    + destruct (IH a s (S position) ltac:(lia)) as [a' Ha'].
      { intros k len capture' Hk Hm.
        pose proof (H (S k) len capture' ltac:(simpl; lia) Hm). simpl in *. lia. }
      exists (c :: a'). rewrite Ha'.
      replace (position + length (c :: a)) with (S position + length a)
        by (simpl; lia).
      reflexivity.
Qed.

End Prefix.

Lemma pattern_across_false p s s' k :
  pattern_across p s = true ->
  1 <= k -> k < length (placeholder_text p) ->
  starts_with (drop k (placeholder_text p)) (s ++ s') = false.
Proof.
  unfold pattern_across. rewrite forallb_forall. intros H Hk Hk'.
  apply diverge_starts_with, H, in_seq. lia.
Qed.

Lemma literal_prefix p r subject a s s' position :
  pattern_across p s = true ->
  exists a',
    replace_from (literal (placeholder_text p)) r subject position 0
      (a ++ s ++ s')
    = a' ++ replace_from (literal (placeholder_text p)) r subject
              (position + length a) 0 (s ++ s').
Proof.
  intros Hs. apply (replace_from_prefix _ _ _ (length a)); [done|].
  intros k len capture Hk. unfold literal.
  destruct (starts_with _ _) eqn:E; [|done]. intros [= <- _].
  destruct (decide (k + length (placeholder_text p) <= length a)) as [|Hover];
    [done|exfalso].
  rewrite drop_app_le in E by lia.
  apply starts_with_over in E; [|rewrite length_drop; lia].
  rewrite length_drop in E.
  rewrite (pattern_across_false p s s') in E; [done|exact Hs|lia|lia].
Qed.

Lemma replace_pieces_inside row name p subject s xs : forall position,
  pattern_inside p xs = true ->
  fields_verbatim row name xs = true ->
  replace_from (literal (placeholder_text p)) (by_string (field row name p))
    subject position 0 (pieces_text xs ++ s)
  = pieces_text (map (fill p (field row name p)) xs)
      ++ replace_from (literal (placeholder_text p)) (by_string (field row name p))
           subject (position + length (pieces_text xs)) 0 s.
Proof.
  induction xs as [|x xs IH]; intros position Hp Hf.
  { cbn [pieces_text map concat app length]. by rewrite Nat.add_0_r. }
  cbn [fields_verbatim forallb] in Hf. apply andb_true_iff in Hf as [Hx Hf].
  fold (fields_verbatim row name xs) in Hf.
  cbn [map]. rewrite !pieces_text_cons, length_app, Nat.add_assoc, <- !app_assoc.
  destruct x as [t|q]; cbn [piece_text fill pattern_inside] in *.
  - apply andb_true_iff in Hp as [Ht Hp].
    rewrite replace_from_free.
    + by rewrite IH.
    + intros k Hk. unfold literal.
      by rewrite (begins_never_false _ _ _ s Ht k Hk).
  - destruct (decide (q = p)) as [->|Hq]; cbn [piece_text].
    + rewrite (replace_from_match _ _ _ _ [])
        by auto using literal_self, placeholder_text_nonempty.
      rewrite by_string_verbatim by done. by rewrite IH.
    + rewrite replace_from_hole
        by auto using literal_placeholder_led, literal_other.
      by rewrite IH.
Qed.

(** One replacement on a text that has the fragment in it. *)
Lemma replace_all_apart row name p xs a b :
  pattern_inside p xs = true -> pattern_across p (pieces_text xs) = true ->
  fields_verbatim row name xs = true ->
  exists a' b',
    replace_all (placeholder_text p) (field row name p) (a ++ pieces_text xs ++ b)
    = a' ++ pieces_text (map (fill p (field row name p)) xs) ++ b'.
Proof.
  intros Hi Ha Hf. unfold replace_all, replace_global.
  destruct (literal_prefix p (by_string (field row name p))
              (a ++ pieces_text xs ++ b) a (pieces_text xs) b 0 Ha) as [a' ->].
  rewrite (replace_pieces_inside row name p) by done.
  by eexists _, _.
Qed.

Lemma passes_apart_contains row name ps : forall xs a b v,
  fields_verbatim row name xs = true ->
  passes_apart row name ps xs = true ->
  fold_left (fun s p => replace_all (placeholder_text p) (field row name p) s)
    ps (a ++ pieces_text xs ++ b) = v ->
  exists a' b',
    v = a' ++ pieces_text
               (fold_left (fun xs p => map (fill p (field row name p)) xs) ps xs)
          ++ b'.
Proof.
  induction ps as [|p ps IH]; intros xs a b v Hf Hp <-; [by exists a, b|].
  cbn [passes_apart] in Hp.
  apply andb_true_iff in Hp as [[Hi Ha]%andb_true_iff Hp].
  cbn [fold_left].
  destruct (replace_all_apart row name p xs a b Hi Ha Hf) as (a' & b' & ->).
  eapply IH; [by apply fill_verbatim|exact Hp|reflexivity].
Qed.

(** The six replacements on a text that has the fragment in it leave the
    value of the fragment in it. *)
Lemma replace_variables_apart row name xs a b :
  fragment_literal row name xs = true ->
  contains
    (replace_variables (first_name name) (Some name) (Company row) (Email row)
       (Role row) (Link row) (a ++ pieces_text xs ++ b))
    (pieces_value row name xs).
Proof.
  unfold fragment_literal. intros [Hf Hp]%andb_true_iff.
  destruct (passes_apart_contains row name passes xs a b _ Hf Hp eq_refl)
    as (a' & b' & E).
  cbn [passes fold_left] in E. exists a', b'.
  rewrite !map_map in E. rewrite <- pieces_text_values.
  etransitivity; [|etransitivity; [exact E|]].
  - reflexivity.
  - do 2 f_equal. f_equal. apply map_ext. intros x. apply fill_all.
Qed.

Lemma resolved_block Link t f :
  truthy Link = true -> IfLink f ∈ t ->
  exists a b, pieces_text (resolved Link t) = a ++ pieces_text f ++ b.
Proof.
  intros HL. induction t as [|y t IH]; [by intros ?%elem_of_nil|].
  rewrite resolved_cons, pieces_text_app. intros [<-|Hf]%elem_of_cons.
  - rewrite HL. by exists [], (pieces_text (resolved Link t)).
  - destruct (IH Hf) as (a & b & ->). eexists (_ ++ a), b.
    by rewrite <- app_assoc.
Qed.

(** ** The broadcaster and the loop body in closed form *)

Lemma receive_receive sender e1 e2 (C : gmap nat Client) :
  receive sender e2 <$> (receive sender e1 <$> C) = receive sender (e1 ++ e2) <$> C.
Proof.
  rewrite <- map_fmap_compose. apply map_fmap_ext. intros _ c _.
  unfold receive, compose. destruct (decide (client_email c = sender)) as [E|E]; simpl.
  - rewrite decide_True by done. by rewrite app_assoc.
  - by rewrite decide_False.
Qed.

Lemma sendToClient_state sender data st :
  sendToClient sender data st
  = (tt, {| emailJobs := emailJobs st;
            heap :=
              match data, emailJobs st !! sender with
              | Progress _ c s f, Some l =>
                  alter (with_failed f) l
                    (alter (with_success s) l (alter (with_current c) l (heap st)))
              | _, _ => heap st
              end;
            clients := receive sender [data] <$> clients st;
            trace := trace st ++ [Publish sender data] |}).
Proof.
  unfold sendToClient, bind, emit, modify, gets, update. simpl.
  destruct data as [t c s f| |]; try done.
  simpl. by destruct (emailJobs st !! sender).
Qed.

Lemma mailOptions_counters row job v :
  mailOptions row (with_current v job) = mailOptions row job.
Proof. done. Qed.

Section Body.

Context (env : Env) (sender : jsstring) (l : loc).
Context (E : gmap jsstring loc) (h : gmap loc Job) (HE : E !! sender = Some l).

Lemma iteration_state i row job (C : gmap nat Client) T :
  let r := attempt env T row job in
  iteration env sender l i row
    {| emailJobs := E; heap := <[l:=job]> h; clients := C; trace := T |}
  = (tt, {| emailJobs := E; heap := <[l:=processed i r job]> h;
            clients := receive sender (row_events i row r job) <$> C;
            trace := T ++ row_actions sender i row r job |}).
Proof.
  unfold iteration, attempt, bind, update, modify, set_heap.
  cbn [heap emailJobs clients trace]. rewrite alter_insert_eq.
  destruct (missing_required row) eqn:Hmiss.
  - rewrite sendToClient_state. cbn [heap emailJobs clients trace].
    by rewrite alter_insert_eq.
  - unfold sendEmail, bind, emit, modify, set_trace, read, gets, ret.
    cbn [heap emailJobs clients trace]. rewrite lookup_total_insert_eq.
    rewrite mailOptions_counters. unfold row_actions.
    destruct (mailOptions row job) as [options|message];
      cbn [heap emailJobs clients trace];
      [destruct (sendMail env (T ++ [SendEmail row]) options) as [[]|message]|];
      cbn [heap emailJobs clients trace];
      rewrite alter_insert_eq, lookup_total_insert_eq, !sendToClient_state;
      cbn [heap emailJobs clients trace]; rewrite HE, lookup_total_insert_eq;
      rewrite !alter_insert_eq, receive_receive;
      unfold processed;
      cbn [heap emailJobs clients trace data total current success failed
           with_success with_current with_failed];
      destruct (i <? length (data job) - 1); cbn [heap emailJobs clients trace];
      cbn [row_events row_log processed map app]; rewrite <- ?app_assoc; done.
Qed.

End Body.

Lemma receive_nil sender (C : gmap nat Client) : receive sender [] <$> C = C.
Proof.
  rewrite <- (map_fmap_id C) at 2. apply map_fmap_ext. intros _ c _.
  unfold receive. destruct (decide _); [|done]. rewrite app_nil_r. by destruct c.
Qed.

Section Run.

Context (env : Env) (sender : jsstring) (l : loc).
Context (E : gmap jsstring loc) (h : gmap loc Job) (HE : E !! sender = Some l).

(** The loop keeps the counters of the job in step with the index. *)
Lemma loop_counts rows : forall i job (C : gmap nat Client) T,
  success job + failed job = i -> i + length rows <= total job ->
  exists job' events new,
    loop env sender l i rows
      {| emailJobs := E; heap := <[l:=job]> h; clients := C; trace := T |}
    = (tt, {| emailJobs := E; heap := <[l:=job']> h;
              clients := receive sender events <$> C; trace := T ++ new |})
    /\ success job' + failed job' = i + length rows
    /\ total job' = total job
    /\ Forall consistent new.
Proof.
  induction rows as [|row rows IH]; intros i job C T Hi Hn.
  - exists job, [], []. rewrite receive_nil, app_nil_r. simpl.
    split_and!; [done|lia|done|constructor].
  - cbn [loop]. unfold bind at 1. rewrite iteration_state by done.
    set (r := attempt env T row job).
    destruct (IH (S i) (processed i r job)
                (receive sender (row_events i row r job) <$> C)
                (T ++ row_actions sender i row r job))
      as (job' & events & new & -> & Hc & Ht & Hnew).
    { destruct r; simpl; lia. }
    { simpl in Hn. destruct r; simpl; lia. }
    exists job', (row_events i row r job ++ events),
      (row_actions sender i row r job ++ new).
    rewrite receive_receive, <- app_assoc. split_and!; [done|simpl; lia| |].
    + rewrite Ht. by destruct r.
    + apply Forall_app. split; [|done]. simpl in Hn.
      unfold row_actions. destruct r; cbn [row_events map].
      * repeat constructor.
      * constructor; [done|]. apply Forall_app. split.
        { destruct (mailOptions row job); repeat constructor. }
        repeat constructor; simpl; try lia.
        destruct (i <? _); repeat constructor.
      * constructor; [done|]. apply Forall_app. split.
        { destruct (mailOptions row job); repeat constructor. }
        repeat constructor; simpl; try lia.
        destruct (i <? _); repeat constructor.
Qed.

Lemma processEmailJob_started job (C : gmap nat Client) T u job' C' T' :
  createTransporter env T (email job) (password job) = Return u ->
  loop env sender l 0 (data job)
    {| emailJobs := E; heap := <[l:=with_status processing job]> h;
       clients :=
         receive sender
           [Log (str "Starting email sending process for "
                   ++ of_nat (total job) ++ str " recipients")] <$> C;
       trace :=
         T ++ [CreateTransporter (email job) (password job);
               Publish sender
                 (Log (str "Starting email sending process for "
                         ++ of_nat (total job) ++ str " recipients"))] |}
  = (tt, {| emailJobs := E; heap := <[l:=job']> h; clients := C'; trace := T' |}) ->
  processEmailJob env sender
    {| emailJobs := E; heap := <[l:=job]> h; clients := C; trace := T |}
  = (tt, {| emailJobs := delete sender E; heap := <[l:=job']> h;
            clients :=
              receive sender [Complete (success job') (failed job')] <$> C';
            trace :=
              T' ++ [Publish sender (Complete (success job') (failed job'))] |}).
Proof.
  intros Hc Hloop.
  unfold processEmailJob, bind, update, read, emit, gets, modify, set_heap,
    set_trace, set_emailJobs.
  cbn [heap emailJobs clients trace]. rewrite HE.
  cbn [heap emailJobs clients trace]. 
  rewrite alter_insert_eq, lookup_total_insert_eq.
  cbn [email password with_status total data]. rewrite Hc.
  rewrite sendToClient_state. cbn [heap emailJobs clients trace].
  rewrite lookup_total_insert_eq. cbn [email password with_status total data].
  rewrite <- app_assoc. cbn [app]. rewrite Hloop.
  rewrite sendToClient_state. cbn [heap emailJobs clients trace].
  by rewrite lookup_total_insert_eq.
Qed.

Lemma processEmailJob_setup_failed job (C : gmap nat Client) T message :
  createTransporter env T (email job) (password job) = Throw message ->
  processEmailJob env sender
    {| emailJobs := E; heap := <[l:=job]> h; clients := C; trace := T |}
  = (tt, {| emailJobs := delete sender E;
            heap := <[l:=with_status processing job]> h;
            clients :=
              receive sender
                [Log (str "Error creating email transporter: " ++ message);
                 Complete 0 (total job)] <$> C;
            trace :=
              T ++ [CreateTransporter (email job) (password job);
                    Publish sender
                      (Log (str "Error creating email transporter: " ++ message));
                    Publish sender (Complete 0 (total job))] |}).
Proof.
  intros Hc.
  unfold processEmailJob, bind, update, read, emit, gets, modify, set_heap,
    set_trace, set_emailJobs.
  cbn [heap emailJobs clients trace]. rewrite HE.
  cbn [heap emailJobs clients trace].
  rewrite alter_insert_eq, lookup_total_insert_eq.
  cbn [email password with_status total data]. rewrite Hc.
  rewrite !sendToClient_state. cbn [heap emailJobs clients trace].
  rewrite lookup_total_insert_eq, receive_receive, <- !app_assoc.
  done.
Qed.

End Run.

Lemma mailOptions_no_template row job :
  userType job = Some (str "other") -> customEmailBody job = None ->
  exists message, mailOptions row job = Throw message.
Proof.
  intros Hu Hb. unfold mailOptions. destruct (Name row); [|by eexists].
  rewrite Hu, Hb. rewrite decide_False by done. rewrite decide_True by done.
  by eexists.
Qed.

Section NoTemplate.

Context (env : Env) (sender : jsstring) (l : loc).
Context (E : gmap jsstring loc) (h : gmap loc Job) (HE : E !! sender = Some l).

(** Without a custom body every row of the custom variant fails before
    the transport is reached. *)
Lemma loop_no_template rows : forall i job (C : gmap nat Client) T,
  userType job = Some (str "other") -> customEmailBody job = None ->
  exists job' events new,
    loop env sender l i rows
      {| emailJobs := E; heap := <[l:=job]> h; clients := C; trace := T |}
    = (tt, {| emailJobs := E; heap := <[l:=job']> h;
              clients := receive sender events <$> C; trace := T ++ new |})
    /\ success job' = success job
    /\ failed job' = failed job + length rows
    /\ deliveries new = [].
Proof.
  induction rows as [|row rows IH]; intros i job C T Hu Hb.
  - exists job, [], []. rewrite receive_nil, app_nil_r. simpl.
    split_and!; [done|done|lia|done].
  - cbn [loop]. unfold bind at 1. rewrite iteration_state by done.
    destruct (mailOptions_no_template row job Hu Hb) as [message Hm].
    assert (attempt env T row job <> Sent) as Hr.
    { unfold attempt. rewrite Hm. by destruct (missing_required row). }
    set (r := attempt env T row job) in *.
    destruct (IH (S i) (processed i r job)
                (receive sender (row_events i row r job) <$> C)
                (T ++ row_actions sender i row r job))
      as (job' & events & new & -> & Hs & Hf & Hnew).
    { by destruct r. }
    { by destruct r. }
    exists job', (row_events i row r job ++ events),
      (row_actions sender i row r job ++ new).
    rewrite receive_receive, <- app_assoc. split_and!; [done| | |].
    + rewrite Hs. by destruct r.
    + rewrite Hf. destruct r; simpl; (lia || done).
    + unfold deliveries in *. rewrite omap_app, Hnew, app_nil_r.
      unfold row_actions. rewrite Hm.
      destruct r; cbn [row_events map app omap]; try done.
      by destruct (i <? _).
Qed.

End NoTemplate.

Lemma send_emails_started req uuid rows st :
  truthy (req_email req) = true -> truthy (req_password req) = true ->
  request_rows req = inr (Return rows) -> rows <> [] ->
  send_emails req uuid st
  = (Started uuid (length rows),
     {| emailJobs :=
          <[to_string (req_email req) := fresh (dom (heap st))]> (emailJobs st);
        heap := <[fresh (dom (heap st)) := new_job uuid rows req]> (heap st);
        clients := clients st;
        trace := trace st ++ [SetTimeout (to_string (req_email req)) 100] |}).
Proof.
  intros He Hp Hrows Hne. unfold send_emails. rewrite He, Hp, Hrows. simpl.
  rewrite decide_False by by destruct rows. done.
Qed.

(** What [send_emails] stores is a job on which nothing has been processed. *)
Lemma send_emails_stored_fresh req uuid rows st :
  truthy (req_email req) = true -> truthy (req_password req) = true ->
  request_rows req = inr (Return rows) -> rows <> [] ->
  stored_fresh (snd (send_emails req uuid st)) (to_string (req_email req))
    (fresh (dom (heap st))) (new_job uuid rows req).
Proof.
  intros He Hp Hrows Hne. rewrite (send_emails_started req uuid rows st) by assumption.
  unfold stored_fresh. cbn [snd emailJobs heap].
  rewrite !lookup_insert_eq. repeat split; reflexivity.
Qed.

(** ** The delivery loop *)

(** C1. Every progress event that [processEmailJob] publishes for a job taken
    from the store as [send_emails] put it there has
    [current = success + failed] and [current <= total]; at least one
    recipient has been processed when it is published. *)
Theorem progress_events_add_up env sender st l job :
  stored_fresh st sender l job ->
  exists new,
    trace (snd (processEmailJob env sender st)) = trace st ++ new
    /\ Forall consistent new.
Proof.
  intros (HE & Hl & Ht & Hc & Hs & Hf).
  destruct st as [E h C T]. cbn [emailJobs heap clients trace] in *.
  rewrite <- (insert_id h l job Hl).
  destruct (createTransporter env T (email job) (password job))
    as [u|message] eqn:Hcreate.
  - edestruct (loop_counts env sender l E h HE (data job) 0
                (with_status processing job))
      as (job' & events & new & Hloop & _ & _ & Hnew);
      [| |erewrite processEmailJob_started by (try eassumption; done)].
    + simpl. lia.
    + simpl. lia.
    + cbn [snd trace]. rewrite <- !app_assoc. eexists. split; [done|].
      cbn [app]. repeat constructor. apply Forall_app. split; [done|].
      by repeat constructor.
  - erewrite processEmailJob_setup_failed by (try eassumption; done).
    cbn [snd trace]. eexists. split; [done|]. by repeat constructor.
Qed.

Lemma progress_events_add_up_witness :
  exists new,
    trace (snd (processEmailJob Examples.online Examples.me Examples.started))
    = trace Examples.started ++ new
    /\ Forall consistent new.
Proof.
  apply (progress_events_add_up Examples.online Examples.me Examples.started
           1%positive Examples.the_job).
  repeat split; reflexivity.
Defined.

(** C2. A row that lacks one of [Name], [Email], [Company], [Role] is
    counted as failed: [failed] of the job grows by one, [success] stays and
    [current] is the number of the row.  A log event that tells the skip is
    published, neither [sendEmail] nor [transporter.sendMail] is called for
    the row, and the loop goes on with the next row. *)
Theorem missing_field_skipped env sender l i row rows st :
  truthy (Name row) = false \/ truthy (Email row) = false
  \/ truthy (Company row) = false \/ truthy (Role row) = false ->
  let skip :=
    Log (str "Skipping row " ++ of_nat (i + 1) ++ str ": Missing required fields") in
  let st' := snd (iteration env sender l i row st) in
  heap st'
  = alter (fun job => with_failed (failed job + 1) (with_current (i + 1) job)) l
      (heap st)
  /\ (forall job,
        heap st !! l = Some job ->
        exists job',
          heap st' !! l = Some job'
          /\ failed job' = failed job + 1 /\ success job' = success job
          /\ current job' = i + 1 /\ total job' = total job
          /\ data job' = data job)
  /\ (forall l', l' <> l -> heap st' !! l' = heap st !! l')
  /\ trace st' = trace st ++ [Publish sender skip]
  /\ clients st' = receive sender [skip] <$> clients st
  /\ emailJobs st' = emailJobs st
  /\ renderings (trace st') = renderings (trace st)
  /\ deliveries (trace st') = deliveries (trace st)
  /\ loop env sender l i (row :: rows) st = loop env sender l (S i) rows st'.
Proof.
  intros Hrow skip.
  assert (missing_required row = true) as Hmiss.
  { unfold missing_required.
    destruct Hrow as [-> | [-> | [-> | ->]]]; simpl; by rewrite ?orb_true_r. }
  assert (iteration env sender l i row st
          = (tt, {| emailJobs := emailJobs st;
                    heap :=
                      alter (fun job => with_failed (failed job + 1)
                                          (with_current (i + 1) job)) l (heap st);
                    clients := receive sender [skip] <$> clients st;
                    trace := trace st ++ [Publish sender skip] |})) as ->.
  { unfold iteration, bind, update, modify, set_heap. rewrite Hmiss.
    rewrite sendToClient_state. cbn [heap emailJobs clients trace].
    by rewrite alter_alter_eq. }
  cbn [snd heap emailJobs clients trace]. split_and!; try done.
  - intros job Hjob. rewrite lookup_alter_eq, Hjob. cbn [fmap option_fmap option_map].
    eexists. split; [reflexivity|]. repeat split.
  - intros l' Hl'. by rewrite lookup_alter_ne.
  - unfold renderings. by rewrite omap_app, app_nil_r.
  - unfold deliveries. by rewrite omap_app, app_nil_r.
  - cbn [loop]. unfold bind at 1.
    unfold iteration, bind, update, modify, set_heap. rewrite Hmiss.
    rewrite sendToClient_state. cbn [heap emailJobs clients trace].
    by rewrite alter_alter_eq.
Qed.

Lemma missing_field_skipped_witness :
  truthy (Role Examples.bob) = false
  /\ trace (snd (iteration Examples.online Examples.me 1%positive 1 Examples.bob
                   Examples.started))
     = trace Examples.started
         ++ [Publish Examples.me
               (Log (str "Skipping row " ++ of_nat (1 + 1)
                       ++ str ": Missing required fields"))]
  /\ exists job',
       heap (snd (iteration Examples.online Examples.me 1%positive 1 Examples.bob
                    Examples.started)) !! 1%positive = Some job'
       /\ failed job' = 1 /\ success job' = 0 /\ current job' = 2.
Proof.
  split; [reflexivity|].
  destruct (missing_field_skipped Examples.online Examples.me 1%positive 1
              Examples.bob [] Examples.started)
    as (_ & Hjob & _ & Htrace & _).
  { right. right. right. reflexivity. }
  split; [exact Htrace|].
  destruct (Hjob Examples.the_job eq_refl) as (job' & Hl & Hf & Hs & Hc & _).
  exists job'. split; [exact Hl|]. rewrite Hf, Hs, Hc. repeat split.
Defined.

(** C6. When [createTransporter] throws, every subscriber of the sender is
    written one log event and then one complete event with [success = 0] and
    [failed = job.total], [transporter.sendMail] is not called, and the job
    is deleted from [emailJobs]. *)
Theorem setup_failure_reported env sender st l job message :
  emailJobs st !! sender = Some l ->
  heap st !! l = Some job ->
  createTransporter env (trace st) (email job) (password job) = Throw message ->
  let st' := snd (processEmailJob env sender st) in
  let log := Log (str "Error creating email transporter: " ++ message) in
  clients st' = receive sender [log; Complete 0 (total job)] <$> clients st
  /\ trace st'
     = trace st ++ [CreateTransporter (email job) (password job);
                    Publish sender log;
                    Publish sender (Complete 0 (total job))]
  /\ deliveries (trace st') = deliveries (trace st)
  /\ emailJobs st' !! sender = None.
Proof.
  intros HE Hl Hcreate.
  destruct st as [E h C T]. cbn [emailJobs heap clients trace] in *.
  rewrite <- (insert_id h l job Hl).
  erewrite processEmailJob_setup_failed by (try eassumption; done).
  cbn [snd heap emailJobs clients trace]. split_and!; try done.
  - unfold deliveries. by rewrite omap_app, app_nil_r.
  - apply lookup_delete_eq.
Qed.

Lemma setup_failure_reported_witness :
  let st' := snd (processEmailJob Examples.offline Examples.me Examples.started) in
  trace st'
  = trace Examples.started
      ++ [CreateTransporter Examples.me (str "secret");
          Publish Examples.me
            (Log (str "Error creating email transporter: Invalid login"));
          Publish Examples.me (Complete 0 3)]
  /\ emailJobs st' !! Examples.me = None.
Proof.
  destruct (setup_failure_reported Examples.offline Examples.me Examples.started
              1%positive Examples.the_job (str "Invalid login"))
    as (_ & Ht & _ & HE); [reflexivity..|].
  split; [exact Ht|exact HE].
Defined.

(** ** The start of a job *)

(** C3, as the code has it. A request for the custom variant without a custom
    body is not turned down when it starts: if it is valid otherwise, the job
    is stored for the sender with no custom body.  The missing body shows in
    the loop, where no row reaches the transport and the job ends with every
    row failed. *)
Theorem custom_without_body_started env req uuid rows st :
  truthy (req_email req) = true -> truthy (req_password req) = true ->
  req_userType req = Some (str "other") ->
  truthy (req_customEmailBody req) = false ->
  request_rows req = inr (Return rows) -> rows <> [] ->
  (forall t e p, createTransporter env t e p = Return tt) ->
  let sender := to_string (req_email req) in
  let st1 := snd (send_emails req uuid st) in
  let st2 := snd (processEmailJob env sender st1) in
  fst (send_emails req uuid st) = Started uuid (length rows)
  /\ (exists l, emailJobs st1 !! sender = Some l
                /\ heap st1 !! l = Some (new_job uuid rows req))
  /\ customEmailBody (new_job uuid rows req) = None
  /\ exists new,
       trace st2 = trace st1 ++ new
       /\ deliveries new = []
       /\ last new = Some (Publish sender (Complete 0 (length rows))).
Proof.
  intros He Hp Hu Hb Hrows Hne Henv sender st1 st2. subst st1 st2.
  rewrite (send_emails_started req uuid rows st) by done.
  cbn [fst snd emailJobs heap trace]. fold sender.
  assert (customEmailBody (new_job uuid rows req) = None) as Hbody.
  { unfold new_job. simpl. by rewrite Hb. }
  split_and!; [done| |done|].
  { eexists. by rewrite !lookup_insert_eq. }
  set (l := fresh (dom (heap st))). set (job := new_job uuid rows req).
  edestruct (loop_no_template env sender l (<[sender:=l]> (emailJobs st)) (heap st))
    with (rows := data job) (i := 0) (job := with_status processing job)
    as (job' & events & new & Hloop & Hs & Hf & Hnew);
    [apply lookup_insert_eq|done|done|].
  erewrite processEmailJob_started;
    [|apply lookup_insert_eq|apply Henv|apply Hloop].
  cbn [snd trace]. eexists. split_and!.
  - rewrite <- !app_assoc. reflexivity.
  - unfold deliveries in *. by rewrite !omap_app, Hnew.
  - rewrite app_assoc, last_snoc, Hs, Hf. by subst job.
Qed.

(** The request of the claim, on the empty store: the job is started and
    stored. *)
Lemma custom_without_body_not_rejected :
  req_userType Examples.request = Some (str "other")
  /\ req_customEmailBody Examples.request = None
  /\ fst (send_emails Examples.request (str "job-1") initial)
     = Started (str "job-1") 3
  /\ emailJobs (snd (send_emails Examples.request (str "job-1") initial))
       !! Examples.me = Some 1%positive.
Proof. repeat split; reflexivity. Qed.

Lemma custom_without_body_started_witness :
  fst (send_emails Examples.request (str "job-1") initial)
  = Started (str "job-1") (length [Examples.ada; Examples.bob; Examples.ada]).
Proof.
  apply (custom_without_body_started Examples.online Examples.request
           (str "job-1") [Examples.ada; Examples.bob; Examples.ada] initial);
    try reflexivity; done.
Defined.

(** ** Subscribing and publishing *)

(** C7. A subscription for a sender with a job in [emailJobs] starts with
    one progress event that carries [total], [current], [success] and
    [failed] of that job; without a job nothing is written when the client
    subscribes.  A request without a sender subscribes nobody. *)
Theorem subscribe_snapshot query now st :
  let sender := to_string query in
  let st' := snd (send_emails_sse query now st) in
  if truthy query then
    clients st'
    = <[now := {| client_id := now; client_email := sender;
                  res :=
                    match emailJobs st !! sender with
                    | Some l =>
                        let job := heap st !!! l in
                        [Progress (total job) (current job) (success job)
                           (failed job)]
                    | None => []
                    end |}]> (clients st)
    /\ emailJobs st' = emailJobs st /\ heap st' = heap st
    /\ trace st' = trace st
  else st' = st.
Proof.
  intros sender st'. subst st'. unfold send_emails_sse.
  destruct (truthy query); [|done]. simpl.
  unfold bind, gets, modify, read, ret, set_clients. simpl. fold sender.
  by destruct (emailJobs st !! sender).
Qed.

(** C10. [sendToClient] leaves [emailJobs] as it is; on a progress event it
    sets [current], [success] and [failed] of the sender's job to the
    counters of the event and keeps every other field, and every other
    object; on a log or a complete event the heap is unchanged. *)
Theorem publish_writes_counters_only sender event st :
  let st' := snd (sendToClient sender event st) in
  emailJobs st' = emailJobs st
  /\ heap st'
     = match event, emailJobs st !! sender with
       | Progress _ c s f, Some l =>
           alter (fun job =>
                    {| jobId := jobId job; data := data job;
                       email := email job; password := password job;
                       userType := userType job;
                       customEmailBody := customEmailBody job;
                       status := status job; total := total job;
                       current := c; success := s; failed := f |}) l (heap st)
       | _, _ => heap st
       end.
Proof.
  intros st'. subst st'. rewrite sendToClient_state. cbn [snd emailJobs heap].
  split; [done|]. destruct event as [t c s f| |]; try done.
  destruct (emailJobs st !! sender) as [l|]; [|done].
  rewrite !alter_alter_eq. by apply alter_ext.
Qed.

(** ** The renderer *)

Lemma mailOptions_builtin row job name :
  Name row = Some name -> userType job = Some (str "navneet") ->
  exists m,
    mailOptions row job = Return m
    /\ html m = builtin (first_name name) (Role row) (Company row) (Link row).
Proof.
  intros Hn Hu. unfold mailOptions. rewrite Hn, Hu.
  rewrite decide_True by reflexivity. eexists. split; [reflexivity|].
  cbn [html]. reflexivity.
Qed.

Lemma mailOptions_custom row job name body :
  Name row = Some name -> userType job = Some (str "other") ->
  customEmailBody job = Some body -> body <> [] ->
  exists m,
    mailOptions row job = Return m
    /\ html m = custom body row name.
Proof.
  intros Hn Hu Hb Hne. unfold mailOptions. rewrite Hn, Hu, Hb.
  rewrite decide_False by discriminate. rewrite decide_True by reflexivity.
  destruct body as [|c body]; [congruence|]. cbn [truthy to_string].
  eexists. split; [reflexivity|]. cbn [html]. reflexivity.
Qed.

(** C8. The subject and the HTML that [sendEmail] makes depend on the row,
    on [userType] and on [customEmailBody] only: two calls that agree on
    these end alike, with the same subject and the same HTML or with the same
    error; and a call changes neither the job nor the store. *)
Theorem rendering_deterministic row job job' :
  userType job = userType job' ->
  customEmailBody job = customEmailBody job' ->
  match mailOptions row job, mailOptions row job' with
  | Return m, Return m' => subject m = subject m' /\ html m = html m'
  | Throw e, Throw e' => e = e'
  | _, _ => False
  end
  /\ forall env l st,
       heap (snd (sendEmail env row l st)) = heap st
       /\ emailJobs (snd (sendEmail env row l st)) = emailJobs st.
Proof.
  intros Hu Hb. split.
  - unfold mailOptions. rewrite <- Hu, <- Hb.
    destruct (Name row) as [name|]; [|reflexivity].
    destruct (decide (userType job = Some (str "navneet")));
      [cbn [subject html]; split; reflexivity|].
    destruct (decide (userType job = Some (str "other"))); [|reflexivity].
    destruct (truthy (customEmailBody job));
      [cbn [subject html]; split; reflexivity|reflexivity].
  - intros env l st.
    unfold sendEmail, bind, emit, read, gets, modify, ret, set_trace.
    cbn [heap emailJobs clients trace].
    destruct (mailOptions row (heap st !!! l)); split; reflexivity.
Qed.

Lemma rendering_deterministic_witness :
  match mailOptions ada (job_of (str "other") (Some body)),
        mailOptions ada
          (with_failed 7 (with_status preparing (job_of (str "other") (Some body))))
  with
  | Return m, Return m' => subject m = subject m' /\ html m = html m'
  | Throw e, Throw e' => e = e'
  | _, _ => False
  end.
Proof.
  exact (proj1 (rendering_deterministic ada (job_of (str "other") (Some body))
                  (with_failed 7
                     (with_status preparing (job_of (str "other") (Some body))))
                  eq_refl eq_refl)).
Defined.

(** C9, as the code has it. The first name is the part of [Name] before its
    first space (code unit 32): all of [Name] when it has no space, the empty
    text when it begins with one.  Both variants use it: the builtin
    template takes it in, and the custom variant puts it for
    [${firstName}]. *)
Theorem first_name_up_to_space row job name :
  Name row = Some name ->
  exists first,
    first_name name = Some first
    /\ (32%N ∉ first)
    /\ (name = first \/ exists rest, name = first ++ 32%N :: rest)
    /\ (userType job = Some (str "navneet") ->
        exists m,
          mailOptions row job = Return m
          /\ html m = builtin (Some first) (Role row) (Company row) (Link row))
    /\ (forall body,
          userType job = Some (str "other") ->
          customEmailBody job = Some body -> body <> [] ->
          exists m,
            mailOptions row job = Return m
            /\ html m
               = replace_variables (Some first) (Some name) (Company row)
                   (Email row) (Role row) (Link row)
                   (resolve_link (Link row) (document (trim body)))).
Proof.
  intros Hn. destruct (first_name_shape name) as (first & Hf & H32 & Hshape).
  exists first. split_and!; [exact Hf|exact H32|exact Hshape| |].
  - intros Hu. destruct (mailOptions_builtin row job name Hn Hu) as (m & Hm & Hh).
    exists m. rewrite <- Hf. split; assumption.
  - intros body Hu Hb Hne.
    destruct (mailOptions_custom row job name body Hn Hu Hb Hne) as (m & Hm & Hh).
    exists m. split; [exact Hm|]. rewrite Hh. unfold custom. rewrite Hf. reflexivity.
Qed.

Lemma first_name_up_to_space_witness :
  exists first,
    first_name (str "Ada Lovelace") = Some first
    /\ (32%N ∉ first)
    /\ (str "Ada Lovelace" = first
        \/ exists rest, str "Ada Lovelace" = first ++ 32%N :: rest).
Proof.
  destruct (first_name_up_to_space ada (job_of (str "navneet") None)
              (str "Ada Lovelace") eq_refl)
    as (first & H1 & H2 & H3 & _).
  exists first. auto.
Defined.

(** The claim of C9 fails on a name that begins with a space, and on a name
    with a tab: the first name the code uses is not the first
    whitespace-delimited token. *)
Lemma first_name_not_first_token :
  first_token (str " Ada Lovelace") = str "Ada"
  /\ first_name (str " Ada Lovelace") = Some []
  /\ html_of (mailOptions padded (job_of (str "navneet") None))
     = builtin (Some []) (Role padded) (Company padded) (Link padded)
  /\ first_token tabbed = str "Ada"
  /\ first_name tabbed = Some tabbed.
Proof. repeat split; vm_compute; reflexivity. Qed.

(** C4, as the code has it. In the custom variant the conditional blocks
    are resolved first, on the whole document, and the six replacements are
    then made one after the other, each on all that the one before has
    left, so that text put for a placeholder is looked through by the
    replacements that follow.  On a well-written template the replacements
    are made on the text in which every block has given way to its fragment,
    or to nothing: the placeholders of a fragment are there to be filled
    in, whatever the record.  When the template is also taken literally
    for the record (no replacement finds its placeholder in what has been
    put in before, and every field stands for itself) the outcome is that of
    one pass: every placeholder, inside a fragment as outside, gives way to
    its field once.  And whatever the rest of the template does with the
    record, the placeholders of a fragment that is taken literally give way
    to their fields once: the value of the fragment is in the HTML. *)
Theorem conditional_then_variables row job name body :
  Name row = Some name ->
  userType job = Some (str "other") ->
  customEmailBody job = Some body -> body <> [] ->
  exists m,
    mailOptions row job = Return m
    /\ html m
       = replace_all (str "${Link}") (or_empty (Link row))
           (replace_all (str "${Role}") (to_string (Role row))
             (replace_all (str "${Email}") (to_string (Email row))
               (replace_all (str "${Company}") (to_string (Company row))
                 (replace_all (str "${Name}") name
                   (replace_all (str "${firstName}") (to_string (first_name name))
                     (resolve_link (Link row) (document (trim body))))))))
    /\ forall t,
         trim body = template_text t -> well_written t = true ->
         html m
         = replace_variables (first_name name) (Some name) (Company row)
             (Email row) (Role row) (Link row)
             (document (pieces_text (resolved (Link row) t)))
         /\ (literal_for row name t = true ->
             html m = document (template_value row name t))
         /\ (truthy (Link row) = true ->
             forall f, IfLink f ∈ t -> fragment_literal row name f = true ->
                       contains (html m) (pieces_value row name f)).
Proof.
  intros Hn Hu Hb Hne.
  destruct (mailOptions_custom row job name body Hn Hu Hb Hne) as (m & Hm & Hh).
  exists m. split; [exact Hm|]. split.
  - rewrite Hh. unfold custom, replace_variables. reflexivity.
  - intros t Hbody Ht. rewrite Hh. split_and!.
    + exact (custom_resolved body row name t Hbody Ht).
    + intros Hr. exact (custom_value body row name t Hbody Ht Hr).
    + intros HL f Hf Hr. rewrite (custom_resolved body row name t Hbody Ht).
      destruct (resolved_block _ _ _ HL Hf) as (a & b & ->). unfold document.
      rewrite !(app_assoc _ _ (_ ++ document_2)), <- !(app_assoc a).
      rewrite !(app_assoc _ a), <- (app_assoc (pieces_text f)).
      by apply replace_variables_apart.
Qed.

Lemma conditional_then_variables_witness :
  html_of (mailOptions olga (job_of (str "other") (Some body_priced)))
  = document (template_value olga (str "Olga ${x}") template_priced)
  /\ template_value olga (str "Olga ${x}") template_priced
     = str "<body><p>${x} & ${firstName} Co pays $5k</p><code>`${Name}`</code> <a href='https://example.org/`job`'>job</a></body>".
Proof.
  split; [|vm_compute; reflexivity].
  destruct (conditional_then_variables olga (job_of (str "other") (Some body_priced))
              (str "Olga ${x}") body_priced eq_refl eq_refl eq_refl)
    as (m & Hm & _ & Hvalue); [discriminate|].
  rewrite Hm. cbn [html_of].
  destruct (Hvalue template_priced) as (_ & Hone & _);
    [vm_compute; reflexivity..|].
  apply Hone. vm_compute. reflexivity.
Defined.

(** The claim of C4 fails on a name with a placeholder in it: the pass for
    [${Company}] comes after the pass for [${Name}] and goes through the
    name that has been put in, so that the outcome is not that of one
    pass.  Two more records on which the outcome is not the value of the
    template: a role with the replacement pattern [$&] in it, for which
    the placeholder itself is put back, and a block over two lines, which is
    left as it is written while the placeholder inside of it is filled
    in. *)
Lemma field_substituted_again :
  trim body_name = template_text template_name
  /\ template_value nora (str "Nora ${Company}") template_name
     = str "<body><p>Nora ${Company}</p></body>"
  /\ html_of (mailOptions nora (job_of (str "other") (Some body_name)))
     = document (str "<body><p>Nora Acme</p></body>")
  /\ html_of (mailOptions nora (job_of (str "other") (Some body_name)))
     <> document (template_value nora (str "Nora ${Company}") template_name)
  /\ trim body = template_text template
  /\ template_value hana (str "Hana Lee") template
     = str "<body><p>Hi Hana,</p><a href='https://example.org/job'>R$&D at Acme</a></body>"
  /\ html_of (mailOptions hana (job_of (str "other") (Some body)))
     = document (str "<body><p>Hi Hana,</p><a href='https://example.org/job'>R${Role}D at Acme</a></body>")
  /\ trim body_two_lines = template_text template_two_lines
  /\ template_value ada (str "Ada Lovelace") template_two_lines
     = str "<body><a href='https://example.org/job'>
  Job details</a></body>"
  /\ html_of (mailOptions ada (job_of (str "other") (Some body_two_lines)))
     = document
         (str "<body>${Link ? `<a href='https://example.org/job'>
  Job details</a>` : ''}</body>").
Proof.
  split_and!; try (vm_compute; reflexivity).
  intros E. apply (f_equal length) in E. vm_compute in E. discriminate E.
Qed.

Lemma document_parts_plain :
  no_dollar document_0 = true /\ no_dollar emailStyles = true
  /\ no_dollar document_1 = true /\ no_dollar document_2 = true.
Proof. repeat split; vm_compute; reflexivity. Qed.

Lemma builtin_with_link first Role Company Link :
  truthy Link = true ->
  contains (builtin first Role Company Link) (link_button Link).
Proof.
  intros HL. unfold builtin. rewrite HL.
  do 7 apply contains_app_r. apply contains_app_l, contains_refl.
Qed.

Lemma builtin_without_link first Role Company Link :
  truthy Link = false ->
  builtin first Role Company Link
  = builtin_0 ++ to_string first ++ builtin_1 ++ to_string Role
      ++ builtin_2 ++ to_string Company ++ builtin_3
      ++ builtin_4 ++ to_string Company ++ builtin_5.
Proof. intros HL. unfold builtin. rewrite HL, app_nil_l. reflexivity. Qed.

(** C5, as the code has it. The builtin variant has the job button in its
    HTML when [Link] is not empty, and otherwise is the document without it,
    in which the opening of a block stands only if a field brings it.  In
    the custom variant, on a well-written template, the six replacements are
    made on the document in which every block has given way to its fragment
    when [Link] is not empty, and has been taken out whole otherwise,
    whatever the record.  When the template is also taken literally for the
    record, the HTML has the value of every conditional fragment in it when
    [Link] is not empty, and otherwise is the value of the template without
    its blocks, in which the opening of a block stands only if the literal
    text and the fields bring it.  Whatever the rest of the template does
    with the record: with [Link] not empty, the HTML has the value of a
    fragment in it when the fragment is taken literally for the record; with
    [Link] empty, the opening of a block is not in the HTML when the text
    outside of the blocks and the fields of the record have no backtick. *)
Theorem conditional_link_resolved row job name :
  Name row = Some name ->
  (userType job = Some (str "navneet") ->
   exists m,
     mailOptions row job = Return m
     /\ if truthy (Link row) then contains (html m) (link_button (Link row))
        else (html m
              = builtin_0 ++ to_string (first_name name) ++ builtin_1
                  ++ to_string (Role row) ++ builtin_2
                  ++ to_string (Company row) ++ builtin_3 ++ builtin_4
                  ++ to_string (Company row) ++ builtin_5
              /\ occurs link_open (html m)
                 = occurs link_open (to_string (first_name name))
                   || occurs link_open (to_string (Role row))
                   || occurs link_open (to_string (Company row))))
  /\ (forall body t,
        userType job = Some (str "other") ->
        customEmailBody job = Some body -> body <> [] ->
        trim body = template_text t -> well_written t = true ->
        exists m,
          mailOptions row job = Return m
          /\ html m
             = replace_variables (first_name name) (Some name) (Company row)
                 (Email row) (Role row) (Link row)
                 (document
                    (pieces_text
                       (if truthy (Link row) then resolved (Link row) t
                        else resolved None (without_blocks t))))
          /\ (literal_for row name t = true ->
              if truthy (Link row)
              then forall f, IfLink f ∈ t ->
                             contains (html m) (pieces_value row name f)
              else (html m
                    = document (template_value row name (without_blocks t))
                    /\ occurs link_open (html m)
                       = occurs link_open
                           (template_value row name (without_blocks t))))
          /\ (truthy (Link row) = true ->
              forall f, IfLink f ∈ t -> fragment_literal row name f = true ->
                        contains (html m) (pieces_value row name f))
          /\ (truthy (Link row) = false ->
              tick_free (pieces_text (resolved None (without_blocks t))) = true ->
              (forall p, tick_free (field row name p) = true) ->
              occurs link_open (html m) = false)).
Proof.
  intros Hn. split.
  - intros Hu. destruct (mailOptions_builtin row job name Hn Hu) as (m & Hm & Hh).
    exists m. split; [exact Hm|]. rewrite Hh.
    destruct (truthy (Link row)) eqn:HL.
    + apply builtin_with_link, HL.
    + rewrite (builtin_without_link _ _ _ _ HL). split; [reflexivity|].
      apply builtin_opener.
  - intros body t Hu Hb Hne Hbody Ht.
    destruct (mailOptions_custom row job name body Hn Hu Hb Hne) as (m & Hm & Hh).
    exists m. split; [exact Hm|]. rewrite Hh. split_and!.
    + rewrite (custom_resolved body row name t Hbody Ht).
      destruct (truthy (Link row)) eqn:HL; [reflexivity|].
      by rewrite (resolved_without_blocks _ _ HL).
    + intros Hr. rewrite (custom_value body row name t Hbody Ht Hr).
      destruct (truthy (Link row)) eqn:HL.
      * intros f Hf. unfold document. do 3 apply contains_app_r.
        apply contains_app_l. apply template_value_block; assumption.
      * rewrite <- (template_value_without_blocks row name t HL).
        split; [reflexivity|]. apply occurs_document.
    + intros HL f Hf Hr. rewrite (custom_resolved body row name t Hbody Ht).
      destruct (resolved_block _ _ _ HL Hf) as (a & b & ->). unfold document.
      rewrite !(app_assoc _ _ (_ ++ document_2)), <- !(app_assoc a).
      rewrite !(app_assoc _ a), <- (app_assoc (pieces_text f)).
      by apply replace_variables_apart.
    + intros HL Ht' Hf. rewrite (custom_resolved body row name t Hbody Ht).
      rewrite (resolved_without_blocks _ _ HL).
      by apply replace_variables_tick_free, document_tick_free.
Qed.

Lemma conditional_link_resolved_witness :
  contains (html_of (mailOptions erin (job_of (str "other") (Some body_priced))))
    (pieces_value erin (str "Erin Moss") fragment_priced)
  /\ pieces_value erin (str "Erin Moss") fragment_priced
     = str "<code>`Analyst`</code> <a href='https://example.org/job'>job</a>"
  /\ contains (html_of (mailOptions nell (job_of (str "other") (Some body_both))))
       (pieces_value nell (str "Nell ${Company}") fragment_job)
  /\ occurs link_open
       (html_of (mailOptions nora (job_of (str "other") (Some body_both))))
     = false.
Proof.
  split_and!; [| vm_compute; reflexivity | |].
  - assert (trim body_priced = template_text template_priced) as Hbody
      by (vm_compute; reflexivity).
    assert (well_written template_priced = true) as Ht
      by (vm_compute; reflexivity).
    assert (literal_for erin (str "Erin Moss") template_priced = true) as Hr
      by (vm_compute; reflexivity).
    destruct (proj2 (conditional_link_resolved erin
                       (job_of (str "other") (Some body_priced))
                       (str "Erin Moss") eq_refl)
                body_priced template_priced eq_refl eq_refl ltac:(discriminate)
                Hbody Ht)
      as (m & Hm & _ & Hm' & _ & _).
    rewrite Hm. cbn [html_of]. specialize (Hm' Hr).
    cbn [Link erin truthy str] in Hm'.
    apply Hm'. unfold template_priced. rewrite !elem_of_cons. auto.
  - assert (trim body_both = template_text template_both) as Hbody
      by (vm_compute; reflexivity).
    assert (well_written template_both = true) as Ht
      by (vm_compute; reflexivity).
    destruct (proj2 (conditional_link_resolved nell
                       (job_of (str "other") (Some body_both))
                       (str "Nell ${Company}") eq_refl)
                body_both template_both eq_refl eq_refl ltac:(discriminate)
                Hbody Ht)
      as (m & Hm & _ & _ & Hm' & _).
    rewrite Hm. cbn [html_of]. apply Hm'.
    + reflexivity.
    + unfold template_both. rewrite !elem_of_cons. auto.
    + vm_compute. reflexivity.
  - assert (trim body_both = template_text template_both) as Hbody
      by (vm_compute; reflexivity).
    assert (well_written template_both = true) as Ht
      by (vm_compute; reflexivity).
    destruct (proj2 (conditional_link_resolved nora
                       (job_of (str "other") (Some body_both))
                       (str "Nora ${Company}") eq_refl)
                body_both template_both eq_refl eq_refl ltac:(discriminate)
                Hbody Ht)
      as (m & Hm & _ & _ & _ & Hm').
    rewrite Hm. cbn [html_of]. apply Hm'.
    + reflexivity.
    + vm_compute. reflexivity.
    + intros []; vm_compute; reflexivity.
Defined.

(** The claim of C5 fails with the link absent: on a block that runs over
    two lines, on a company written like a block, on a company in which the
    opening of a block comes about once [${Link}] has gone, on a company
    that ends in a dollar sign before a brace of the text, on a text in
    which the opening of a block is written around [${Link}], and on a text
    with an opening that no closing text follows, the opening of a block is
    in the HTML; on a block in whose fragment the closing text stands, the
    rest of the fragment is.  With the link present it fails on a name
    with a placeholder in it and on a role with a replacement pattern in
    it: the fragment with its fields is not in the HTML. *)
Lemma conditional_syntax_left_over :
  Link carol = None
  /\ occurs link_open
       (html_of (mailOptions carol (job_of (str "other") (Some body_two_lines))))
     = true
  /\ Link dora = None
  /\ occurs link_open
       (html_of (mailOptions dora (job_of (str "other") (Some body_company))))
     = true
  /\ Link fern = None
  /\ occurs link_open (to_string (Company fern)) = false
  /\ occurs link_open
       (html_of (mailOptions fern (job_of (str "other") (Some body_company))))
     = true
  /\ Link gina = None
  /\ occurs link_open (to_string (Company gina)) = false
  /\ occurs link_open
       (html_of (mailOptions gina (job_of (str "other") (Some body_joint))))
     = true
  /\ Link carol = None
  /\ occurs link_open
       (html_of (mailOptions carol (job_of (str "other") (Some body_made_up))))
     = true
  /\ Link carol = None
  /\ occurs link_open
       (html_of (mailOptions carol (job_of (str "other") (Some body_unclosed))))
     = true
  /\ Link carol = None
  /\ trim body_closed_early = template_text template_closed_early
  /\ occurs (str " or b` : ''}")
       (html_of (mailOptions carol (job_of (str "other") (Some body_closed_early))))
     = true
  /\ truthy (Link nell) = true
  /\ occurs (pieces_value nell (str "Nell ${Company}") fragment_named)
       (html_of (mailOptions nell (job_of (str "other") (Some body_named))))
     = false
  /\ truthy (Link hana) = true
  /\ trim body = template_text template
  /\ occurs (pieces_value hana (str "Hana Lee") fragment)
       (html_of (mailOptions hana (job_of (str "other") (Some body))))
     = false.
Proof. repeat split; vm_compute; reflexivity. Qed.

(** * Beyond the claims: whole runs, the handlers, the upload filter *)

Import Multer Runs Cases.

(** ** The loop in closed form *)

Section Closed.

Context (env : Env) (sender : jsstring) (l : loc).
Context (E : gmap jsstring loc) (h : gmap loc Job) (HE : E !! sender = Some l).

Lemma loop_run rows : forall i job (C : gmap nat Client) T,
  loop env sender l i rows
    {| emailJobs := E; heap := <[l:=job]> h; clients := C; trace := T |}
  = (tt, {| emailJobs := E;
            heap := <[l:=final (rows_run env sender i rows job T)]> h;
            clients :=
              receive sender (events (rows_run env sender i rows job T)) <$> C;
            trace := T ++ actions (rows_run env sender i rows job T) |}).
Proof.
  induction rows as [|row rows IH]; intros i job C T.
  - cbn [loop rows_run final events actions]. unfold ret.
    by rewrite receive_nil, app_nil_r.
  - cbn [loop rows_run final events actions]. unfold bind at 1.
    rewrite iteration_state by exact HE. rewrite IH.
    by rewrite receive_receive, <- app_assoc.
Qed.

(** The whole of [processEmailJob] on a stored job, by the answer of
    [createTransporter]. *)
Lemma processEmailJob_run job (C : gmap nat Client) T :
  let start :=
    Log (str "Starting email sending process for "
           ++ of_nat (total job) ++ str " recipients") in
  let opened := [CreateTransporter (email job) (password job)] in
  let r :=
    rows_run env sender 0 (data job) (with_status processing job)
      (T ++ opened ++ [Publish sender start]) in
  processEmailJob env sender
    {| emailJobs := E; heap := <[l:=job]> h; clients := C; trace := T |}
  = match createTransporter env T (email job) (password job) with
    | Return _ =>
        (tt, {| emailJobs := delete sender E; heap := <[l:=final r]> h;
                clients :=
                  receive sender
                    ([start] ++ events r
                       ++ [Complete (success (final r)) (failed (final r))])
                    <$> C;
                trace :=
                  T ++ opened ++ [Publish sender start] ++ actions r
                    ++ [Publish sender
                          (Complete (success (final r)) (failed (final r)))] |})
    | Throw message =>
        (tt, {| emailJobs := delete sender E;
                heap := <[l:=with_status processing job]> h;
                clients :=
                  receive sender
                    [Log (str "Error creating email transporter: " ++ message);
                     Complete 0 (total job)] <$> C;
                trace :=
                  T ++ opened
                    ++ [Publish sender
                          (Log (str "Error creating email transporter: "
                                  ++ message));
                        Publish sender (Complete 0 (total job))] |})
    end.
Proof.
  intros start opened r.
  destruct (createTransporter env T (email job) (password job)) as [u|message] eqn:Hc.
  - erewrite processEmailJob_started; [|exact HE|exact Hc|apply loop_run].
    subst r opened start. cbn [app].
    rewrite !receive_receive, <- !app_assoc. reflexivity.
  - rewrite (processEmailJob_setup_failed env sender l E h HE job C T message Hc).
    reflexivity.
Qed.

End Closed.

(** ** What the loop does, row by row *)

Section Rows.

Context (env : Env) (sender : jsstring).

Lemma processed_fields i r job :
  data (processed i r job) = data job /\ total (processed i r job) = total job
  /\ userType (processed i r job) = userType job
  /\ customEmailBody (processed i r job) = customEmailBody job
  /\ email (processed i r job) = email job
  /\ password (processed i r job) = password job
  /\ jobId (processed i r job) = jobId job
  /\ status (processed i r job) = status job.
Proof. by destruct r. Qed.

Lemma renderable_processed i r job :
  renderable (processed i r job) = renderable job.
Proof. by destruct r. Qed.

Lemma rows_run_fields rows : forall i job T,
  let r := rows_run env sender i rows job T in
  data (final r) = data job /\ total (final r) = total job
  /\ status (final r) = status job /\ jobId (final r) = jobId job
  /\ email (final r) = email job /\ password (final r) = password job
  /\ userType (final r) = userType job
  /\ customEmailBody (final r) = customEmailBody job.
Proof.
  induction rows as [|row rows IH]; intros i job T; [done|].
  cbn [rows_run final]. cbv zeta in IH.
  destruct (IH (S i) (processed i (attempt env T row job) job)
              (T ++ row_actions sender i row (attempt env T row job) job))
    as (-> & -> & -> & -> & -> & -> & -> & ->).
  by destruct (attempt env T row job).
Qed.

Lemma rows_run_counts rows : forall i job T,
  let r := rows_run env sender i rows job T in
  success (final r) + failed (final r)
  = success job + failed job + length rows.
Proof.
  induction rows as [|row rows IH]; intros i job T.
  - simpl. lia.
  - cbn [rows_run final length]. cbv zeta in IH. rewrite IH.
    destruct (attempt env T row job); simpl; lia.
Qed.

Lemma rows_run_published rows : forall i job T,
  let r := rows_run env sender i rows job T in
  published (actions r) = events r /\ Forall (for_sender sender) (actions r).
Proof.
  induction rows as [|row rows IH]; intros i job T.
  - split; [done|constructor].
  - cbn [rows_run events actions]. cbv zeta in IH.
    destruct (IH (S i) (processed i (attempt env T row job) job)
                (T ++ row_actions sender i row (attempt env T row job) job))
      as [IH1 IH2].
    unfold published in *. rewrite omap_app, IH1, Forall_app.
    split; [f_equal|split; [|exact IH2]]; unfold row_actions;
      destruct (attempt env T row job), (mailOptions row job);
      cbn [row_events map app omap]; try done;
      try (by destruct (i <? _));
      repeat constructor; destruct (i <? _); by repeat constructor.
Qed.

Lemma rows_run_renderings rows : forall i job T,
  renderings (actions (rows_run env sender i rows job T))
  = List.filter complete rows.
Proof.
  induction rows as [|row rows IH]; intros i job T; [done|].
  cbn [rows_run actions List.filter]. unfold renderings in *.
  rewrite omap_app, IH. unfold complete at 2, row_actions, attempt.
  destruct (missing_required row); cbn [negb]; [reflexivity|].
  destruct (mailOptions row job) as [m|msg];
    [destruct (sendMail env (T ++ [SendEmail row]) m)|];
    cbn [row_events map app omap]; destruct (i <? _); reflexivity.
Qed.

End Rows.

Lemma truthy_Some v : truthy v = true -> exists s, v = Some s.
Proof. destruct v as [s|]; [by exists s|done]. Qed.

Lemma complete_fields row :
  complete row = true ->
  truthy (Name row) = true /\ truthy (Email row) = true
  /\ truthy (Company row) = true /\ truthy (Role row) = true.
Proof.
  unfold complete, missing_required.
  destruct (truthy (Name row)), (truthy (Email row)), (truthy (Company row)),
    (truthy (Role row)); done.
Qed.

(** The end of [sendEmail] before the transport, by the variant and the
    body of the job. *)
Lemma mailOptions_outcome row job name :
  Name row = Some name ->
  match mailOptions row job with
  | Return m =>
      renderable job = true /\ mail_to m = Email row
      /\ subject m
         = str "Request for an Interview Opportunity - "
             ++ to_string (Role row) ++ str " at " ++ to_string (Company row)
  | Throw message =>
      renderable job = false
      /\ message
         = if bool_decide (userType job = Some (str "other"))
           then str "No custom email template provided"
           else str "Invalid user type specified"
  end.
Proof.
  intros Hn. unfold mailOptions, renderable. rewrite Hn.
  destruct (decide (userType job = Some (str "navneet"))) as [Hu|Hu].
  - rewrite (bool_decide_eq_true_2 _ Hu). cbn [mail_to subject orb].
    split; [reflexivity|]. split; reflexivity.
  - rewrite (bool_decide_eq_false_2 _ Hu). cbn [orb].
    destruct (decide (userType job = Some (str "other"))) as [Ho|Ho].
    + rewrite (bool_decide_eq_true_2 _ Ho). cbn [andb].
      destruct (truthy (customEmailBody job)).
      * cbn [mail_to subject]. split; [reflexivity|]. split; reflexivity.
      * split; reflexivity.
    + rewrite (bool_decide_eq_false_2 _ Ho). split; reflexivity.
Qed.

Section Rows2.

Context (env : Env) (sender : jsstring).

Lemma rows_run_deliveries rows : forall i job T,
  renderable job = true ->
  map mail_to (deliveries (actions (rows_run env sender i rows job T)))
  = map Email (List.filter complete rows).
Proof.
  induction rows as [|row rows IH]; intros i job T Hr; [done|].
  cbn [rows_run actions List.filter]. unfold deliveries in *.
  rewrite omap_app, map_app, IH by by rewrite renderable_processed.
  destruct (complete row) eqn:Hrow.
  - destruct (complete_fields row Hrow) as ([name Hn]%truthy_Some & _).
    pose proof (mailOptions_outcome row job name Hn) as Hm.
    unfold complete in Hrow. apply negb_true_iff in Hrow.
    unfold row_actions, attempt. rewrite Hrow.
    destruct (mailOptions row job) as [m|msg].
    + destruct Hm as (_ & Hto & _).
      destruct (sendMail env (T ++ [SendEmail row]) m);
        cbn [row_events map app omap]; destruct (i <? _);
        cbn [row_events map app omap list_omap]; by rewrite Hto.
    + destruct Hm as [Hm _]. congruence.
  - unfold complete in Hrow. apply negb_false_iff in Hrow.
    unfold row_actions, attempt. rewrite Hrow. reflexivity.
Qed.

Lemma rows_run_no_deliveries rows : forall i job T,
  renderable job = false ->
  deliveries (actions (rows_run env sender i rows job T)) = []
  /\ success (final (rows_run env sender i rows job T)) = success job.
Proof.
  induction rows as [|row rows IH]; intros i job T Hr; [done|].
  cbn [rows_run actions final]. unfold deliveries in *. rewrite omap_app.
  assert (attempt env T row job <> Sent
          /\ forall m, mailOptions row job <> Return m) as [Hs Hm].
  { unfold attempt. destruct (missing_required row) eqn:Hmiss.
    - split; [done|]. intros m Hm. unfold mailOptions in Hm.
      destruct (Name row) as [name|] eqn:Hn; [|done].
      pose proof (mailOptions_outcome row job name Hn) as Ho.
      unfold mailOptions in Ho. rewrite Hn in Ho.
      rewrite Hm in Ho. destruct Ho as [Ho _]. congruence.
    - assert (complete row = true) as Hc by (unfold complete; by rewrite Hmiss).
      destruct (complete_fields row Hc) as ([name Hn]%truthy_Some & _).
      pose proof (mailOptions_outcome row job name Hn) as Ho.
      destruct (mailOptions row job) as [m|msg].
      + destruct Ho as [Ho _]. congruence.
      + done. }
  destruct (IH (S i) (processed i (attempt env T row job) job)
              (T ++ row_actions sender i row (attempt env T row job) job))
    as [-> ->].
  { by rewrite renderable_processed. }
  split.
  - rewrite app_nil_r. unfold row_actions.
    destruct (attempt env T row job); [reflexivity|done|].
    destruct (mailOptions row job) as [m|msg]; [by destruct (Hm m)|].
    cbn [row_events map app omap]. by destruct (i <? _).
  - by destruct (attempt env T row job).
Qed.

Lemma rows_run_sleeps rows : forall i job T,
  i + length rows = length (data job) ->
  sleeps (actions (rows_run env sender i rows job T))
  = map (fun _ => 3000) (List.filter complete (removelast rows)).
Proof.
  induction rows as [|row rows IH]; intros i job T Hn; [done|].
  cbn [rows_run actions]. unfold sleeps in *. rewrite omap_app.
  rewrite IH; last first.
  { destruct (processed_fields i (attempt env T row job) job) as [-> _].
    simpl in Hn. lia. }
  unfold row_actions, attempt, complete.
  destruct rows as [|row' rows].
  - cbn [removelast List.filter map]. rewrite app_nil_r.
    replace (i <? length (data job) - 1) with false
      by (symmetry; apply Nat.ltb_ge; simpl in Hn; lia).
    destruct (missing_required row); [reflexivity|].
    destruct (mailOptions row job) as [m|msg];
      [destruct (sendMail env (T ++ [SendEmail row]) m)|]; reflexivity.
  - change (removelast (row :: row' :: rows)) with (row :: removelast (row' :: rows)).
    cbn [List.filter].
    replace (i <? length (data job) - 1) with true
      by (symmetry; apply Nat.ltb_lt; simpl in Hn; lia).
    destruct (missing_required row); cbn [negb]; [reflexivity|].
    destruct (mailOptions row job) as [m|msg];
      [destruct (sendMail env (T ++ [SendEmail row]) m)|]; reflexivity.
Qed.

Lemma rows_run_currents rows : forall i job T,
  Forall (fun c => i < c <= i + length rows)
    (progress_currents (actions (rows_run env sender i rows job T)))
  /\ StronglySorted lt
       (progress_currents (actions (rows_run env sender i rows job T)))
  /\ length (progress_currents (actions (rows_run env sender i rows job T)))
     = length (List.filter complete rows).
Proof.
  induction rows as [|row rows IH]; intros i job T.
  - split_and!; constructor.
  - cbn [rows_run actions List.filter]. unfold progress_currents in *.
    rewrite omap_app.
    destruct (IH (S i) (processed i (attempt env T row job) job)
                (T ++ row_actions sender i row (attempt env T row job) job))
      as (Hb & Hs & Hl).
    assert (Forall (fun c => i < c <= i + length (row :: rows))
              (omap (fun a => match a with
                              | Publish _ (Progress _ c _ _) => Some c
                              | _ => None
                              end)
                 (actions
                    (rows_run env sender (S i) rows
                       (processed i (attempt env T row job) job)
                       (T ++ row_actions sender i row (attempt env T row job) job)))))
      as Hb'.
    { eapply Forall_impl; [exact Hb|]. simpl. intros c ?. lia. }
    unfold row_actions, attempt, complete in *.
    destruct (missing_required row); cbn [negb].
    + cbn [row_events row_log map app omap list_omap]. by split_and!.
    + assert (forall r, r <> Skipped ->
                omap (fun a => match a with
                               | Publish _ (Progress _ c _ _) => Some c
                               | _ => None
                               end)
                  (SendEmail row
                     :: match mailOptions row job with
                        | Return options => [SendMail options]
                        | Throw _ => []
                        end
                     ++ map (Publish sender) (row_events i row r job)
                     ++ (if i <? length (data job) - 1 then [Sleep 3000] else []))
                = [i + 1]) as Hone.
      { intros r Hr. destruct (mailOptions row job), r; try done;
          cbn [row_events row_log map app omap list_omap processed current
               with_success with_failed with_current];
          by destruct (i <? _). }
      destruct (mailOptions row job) as [m|msg] eqn:Hm;
        [destruct (sendMail env (T ++ [SendEmail row]) m)|];
        (rewrite Hone by done; cbn [app length]; split_and!;
         [constructor; [simpl; lia|exact Hb']
         |constructor; [exact Hs|];
          eapply Forall_impl; [exact Hb|]; simpl; intros c ?; lia
         |f_equal; exact Hl]).
Qed.

End Rows2.

(** ** A whole run *)

Lemma processEmailJob_stored env sender st l job :
  emailJobs st !! sender = Some l -> heap st !! l = Some job ->
  let start :=
    Log (str "Starting email sending process for "
           ++ of_nat (total job) ++ str " recipients") in
  let opened := [CreateTransporter (email job) (password job)] in
  let r :=
    rows_run env sender 0 (data job) (with_status processing job)
      (trace st ++ opened ++ [Publish sender start]) in
  match createTransporter env (trace st) (email job) (password job) with
  | Return _ =>
      run_actions env sender st
      = opened ++ [Publish sender start] ++ actions r
          ++ [Publish sender (Complete (success (final r)) (failed (final r)))]
      /\ clients (snd (processEmailJob env sender st))
         = receive sender
             ([start] ++ events r
                ++ [Complete (success (final r)) (failed (final r))])
             <$> clients st
      /\ heap (snd (processEmailJob env sender st)) = <[l:=final r]> (heap st)
  | Throw message =>
      run_actions env sender st
      = opened
          ++ [Publish sender
                (Log (str "Error creating email transporter: " ++ message));
              Publish sender (Complete 0 (total job))]
      /\ clients (snd (processEmailJob env sender st))
         = receive sender
             [Log (str "Error creating email transporter: " ++ message);
              Complete 0 (total job)] <$> clients st
      /\ heap (snd (processEmailJob env sender st))
         = <[l:=with_status processing job]> (heap st)
  end.
Proof.
  intros HE Hl start opened r. unfold run_actions.
  destruct st as [E h C T]. cbn [emailJobs heap clients trace] in *.
  pose proof (processEmailJob_run env sender l E h HE job C T) as Hrun.
  cbv zeta in Hrun. rewrite (insert_id h l job Hl) in Hrun.
  fold start in Hrun. fold opened in Hrun. fold r in Hrun.
  destruct (createTransporter env T (email job) (password job)) as [u|message];
    rewrite Hrun; cbn [snd trace clients heap];
    rewrite drop_app_length; split_and!; reflexivity.
Qed.

Lemma last_run {A} (a b c : list A) x : last (a ++ b ++ c ++ [x]) = Some x.
Proof. rewrite !app_assoc. apply last_snoc. Qed.

(** X1. The last call of a run publishes the complete event, and its two
    counters add up to the number of recipients. *)
Theorem complete_counts_every_recipient env sender st l job :
  stored_fresh st sender l job ->
  exists s f,
    last (run_actions env sender st) = Some (Publish sender (Complete s f))
    /\ s + f = total job.
Proof.
  intros (HE & Hl & Ht & Hc & Hs & Hf).
  pose proof (processEmailJob_stored env sender st l job HE Hl) as Hrun.
  cbv zeta in Hrun.
  destruct (createTransporter env (trace st) (email job) (password job))
    as [u|message]; destruct Hrun as (-> & _ & _).
  - eexists _, _. split.
    + apply last_run.
    + rewrite rows_run_counts. cbn [success failed with_status]. lia.
  - exists 0, (total job). split; [reflexivity|lia].
Qed.

Lemma complete_counts_every_recipient_witness :
  exists s f,
    last (run_actions refusing me builtin_started)
    = Some (Publish me (Complete s f))
    /\ s + f = 3.
Proof.
  apply (complete_counts_every_recipient refusing me builtin_started
           1%positive builtin_job).
  repeat split; reflexivity.
Defined.

(** X2. [sendEmail] is called for the rows with all the required fields, in
    the order of [job.data], and for no other row; when the transport cannot
    be set up it is not called at all. *)
Theorem rendered_rows_in_order env sender st l job :
  emailJobs st !! sender = Some l -> heap st !! l = Some job ->
  renderings (run_actions env sender st)
  = match createTransporter env (trace st) (email job) (password job) with
    | Return _ => List.filter complete (data job)
    | Throw _ => []
    end.
Proof.
  intros HE Hl.
  pose proof (processEmailJob_stored env sender st l job HE Hl) as Hrun.
  cbv zeta in Hrun.
  destruct (createTransporter env (trace st) (email job) (password job))
    as [u|message]; destruct Hrun as (-> & _ & _); [|reflexivity].
  unfold renderings. rewrite !omap_app.
  fold (renderings
          (actions
             (rows_run env sender 0 (data job) (with_status processing job)
                (trace st
                   ++ [CreateTransporter (email job) (password job)]
                   ++ [Publish sender
                         (Log (str "Starting email sending process for "
                                 ++ of_nat (total job) ++ str " recipients"))])))).
  rewrite rows_run_renderings. cbn [omap list_omap app]. apply app_nil_r.
Qed.

Lemma rendered_rows_in_order_witness :
  renderings (run_actions online me Examples.started) = [ada; ada].
Proof.
  rewrite (rendered_rows_in_order online me Examples.started 1%positive
             Examples.the_job eq_refl eq_refl).
  reflexivity.
Defined.

(** X3. For a job that can be rendered, the transport is handed one message
    for every row with all the required fields, addressed to the [Email] of
    the row, in the order of [job.data], whatever the transport answers. *)
Theorem one_mail_per_complete_row env sender st l job :
  emailJobs st !! sender = Some l -> heap st !! l = Some job ->
  renderable job = true ->
  map mail_to (deliveries (run_actions env sender st))
  = match createTransporter env (trace st) (email job) (password job) with
    | Return _ => map Email (List.filter complete (data job))
    | Throw _ => []
    end.
Proof.
  intros HE Hl Hr.
  pose proof (processEmailJob_stored env sender st l job HE Hl) as Hrun.
  cbv zeta in Hrun.
  destruct (createTransporter env (trace st) (email job) (password job))
    as [u|message]; destruct Hrun as (-> & _ & _); [|reflexivity].
  unfold deliveries. rewrite !omap_app, !map_app.
  fold (deliveries
          (actions
             (rows_run env sender 0 (data job) (with_status processing job)
                (trace st
                   ++ [CreateTransporter (email job) (password job)]
                   ++ [Publish sender
                         (Log (str "Starting email sending process for "
                                 ++ of_nat (total job) ++ str " recipients"))])))).
  rewrite rows_run_deliveries by exact Hr.
  cbn [omap list_omap app map]. apply app_nil_r.
Qed.

Lemma one_mail_per_complete_row_witness :
  map mail_to (deliveries (run_actions refusing me builtin_started))
  = [Some (str "ada@example.org"); Some (str "ada@example.org")].
Proof.
  rewrite (one_mail_per_complete_row refusing me builtin_started 1%positive
             builtin_job eq_refl eq_refl eq_refl).
  reflexivity.
Defined.

(** X4. For a job that cannot be rendered (a variant that is neither
    [navneet] nor [other], or [other] without a body) the transport is never
    called and the run ends with [success = 0] and [failed = total]. *)
Theorem unrenderable_job_fails_whole env sender st l job :
  stored_fresh st sender l job ->
  renderable job = false ->
  deliveries (run_actions env sender st) = []
  /\ last (run_actions env sender st)
     = Some (Publish sender (Complete 0 (total job))).
Proof.
  intros (HE & Hl & Ht & Hc & Hs & Hf) Hr.
  pose proof (processEmailJob_stored env sender st l job HE Hl) as Hrun.
  cbv zeta in Hrun.
  destruct (createTransporter env (trace st) (email job) (password job))
    as [u|message]; destruct Hrun as (-> & _ & _); [|split; reflexivity].
  pose proof (rows_run_no_deliveries env sender (data job) 0
                (with_status processing job)
                (trace st
                   ++ [CreateTransporter (email job) (password job)]
                   ++ [Publish sender
                         (Log (str "Starting email sending process for "
                                 ++ of_nat (total job) ++ str " recipients"))])
                Hr) as [Hd Hsucc].
  pose proof (rows_run_counts env sender (data job) 0
                (with_status processing job)
                (trace st
                   ++ [CreateTransporter (email job) (password job)]
                   ++ [Publish sender
                         (Log (str "Starting email sending process for "
                                 ++ of_nat (total job) ++ str " recipients"))]))
    as Hcount.
  cbv zeta in Hcount. rewrite Hsucc in Hcount |- *.
  cbn [success failed with_status] in Hcount |- *.
  split.
  - unfold deliveries in *. rewrite !omap_app, Hd. reflexivity.
  - rewrite last_run. do 3 f_equal; lia.
Qed.

Lemma unrenderable_job_fails_whole_witness :
  deliveries (run_actions online me Examples.started) = []
  /\ last (run_actions online me Examples.started)
     = Some (Publish me (Complete 0 (total Examples.the_job))).
Proof.
  apply (unrenderable_job_fails_whole online me Examples.started 1%positive
           Examples.the_job).
  - repeat split; reflexivity.
  - reflexivity.
Defined.

(** X5. The loop waits 3000 ms after every row it has tried to send, the last
    row of [job.data] apart; it does not wait after a row it has skipped,
    and not after the last row. *)
Theorem delay_between_attempts env sender st l job :
  emailJobs st !! sender = Some l -> heap st !! l = Some job ->
  sleeps (run_actions env sender st)
  = match createTransporter env (trace st) (email job) (password job) with
    | Return _ =>
        map (fun _ => 3000) (List.filter complete (removelast (data job)))
    | Throw _ => []
    end.
Proof.
  intros HE Hl.
  pose proof (processEmailJob_stored env sender st l job HE Hl) as Hrun.
  cbv zeta in Hrun.
  destruct (createTransporter env (trace st) (email job) (password job))
    as [u|message]; destruct Hrun as (-> & _ & _); [|reflexivity].
  unfold sleeps. rewrite !omap_app.
  fold (sleeps
          (actions
             (rows_run env sender 0 (data job) (with_status processing job)
                (trace st
                   ++ [CreateTransporter (email job) (password job)]
                   ++ [Publish sender
                         (Log (str "Starting email sending process for "
                                 ++ of_nat (total job) ++ str " recipients"))])))).
  rewrite rows_run_sleeps by reflexivity.
  cbn [omap list_omap app]. apply app_nil_r.
Qed.

Lemma delay_between_attempts_witness :
  sleeps (run_actions online me builtin_started) = [3000].
Proof.
  rewrite (delay_between_attempts online me builtin_started 1%positive
             builtin_job eq_refl eq_refl).
  reflexivity.
Defined.

(** X6. The progress events of a run come with strictly growing [current],
    one for every row with all the required fields; a skipped row has no
    progress event. *)
Theorem progress_in_row_order env sender st l job :
  emailJobs st !! sender = Some l -> heap st !! l = Some job ->
  StronglySorted lt (progress_currents (run_actions env sender st))
  /\ length (progress_currents (run_actions env sender st))
     = match createTransporter env (trace st) (email job) (password job) with
       | Return _ => length (List.filter complete (data job))
       | Throw _ => 0
       end.
Proof.
  intros HE Hl.
  pose proof (processEmailJob_stored env sender st l job HE Hl) as Hrun.
  cbv zeta in Hrun.
  destruct (createTransporter env (trace st) (email job) (password job))
    as [u|message]; destruct Hrun as (-> & _ & _);
    [|split; [constructor|reflexivity]].
  destruct (rows_run_currents env sender (data job) 0
              (with_status processing job)
              (trace st
                 ++ [CreateTransporter (email job) (password job)]
                 ++ [Publish sender
                       (Log (str "Starting email sending process for "
                               ++ of_nat (total job) ++ str " recipients"))]))
    as (_ & Hs & Hlen).
  unfold progress_currents in *. rewrite !omap_app.
  cbn [omap list_omap app]. rewrite app_nil_r. split; [exact Hs|exact Hlen].
Qed.

Lemma progress_in_row_order_witness :
  progress_currents (run_actions online me builtin_started) = [1; 3]
  /\ StronglySorted lt (progress_currents (run_actions online me builtin_started)).
Proof.
  split; [reflexivity|].
  apply (progress_in_row_order online me builtin_started 1%positive builtin_job);
    reflexivity.
Defined.

(** X7. What a run publishes reaches the clients subscribed for the sender,
    each event once and in the order of publication, and no other client;
    a run publishes for its sender only. *)
Theorem run_reaches_subscribers env sender st l job :
  emailJobs st !! sender = Some l -> heap st !! l = Some job ->
  clients (snd (processEmailJob env sender st))
  = receive sender (published (run_actions env sender st)) <$> clients st
  /\ Forall (for_sender sender) (run_actions env sender st).
Proof.
  intros HE Hl.
  pose proof (processEmailJob_stored env sender st l job HE Hl) as Hrun.
  cbv zeta in Hrun.
  destruct (createTransporter env (trace st) (email job) (password job))
    as [u|message]; destruct Hrun as (-> & -> & _).
  - destruct (rows_run_published env sender (data job) 0
                (with_status processing job)
                (trace st
                   ++ [CreateTransporter (email job) (password job)]
                   ++ [Publish sender
                         (Log (str "Starting email sending process for "
                                 ++ of_nat (total job) ++ str " recipients"))]))
      as [Hp Hf].
    split.
    + unfold published in *. rewrite !omap_app, Hp. reflexivity.
    + rewrite !Forall_app. split_and!; [|by repeat constructor|exact Hf|by repeat constructor].
      by repeat constructor.
  - split; [reflexivity|]. by repeat constructor.
Qed.

Lemma run_reaches_subscribers_witness :
  res <$> clients (snd (processEmailJob refusing me watched)) !! 8
  = Some []
  /\ length <$> (res <$> clients (snd (processEmailJob refusing me watched)) !! 7)
     = Some 7.
Proof.
  destruct (run_reaches_subscribers refusing me watched 1%positive
              builtin_job eq_refl eq_refl) as [-> _].
  split; reflexivity.
Defined.

(** ** The handlers and the store *)

Lemma send_emails_outcome req uuid st :
  (exists code message,
     send_emails req uuid st = (Failure code message, st)
     /\ (code = 400 \/ code = 500))
  \/ (exists rows,
        truthy (req_email req) = true /\ truthy (req_password req) = true
        /\ request_rows req = inr (Return rows) /\ rows <> []
        /\ fst (send_emails req uuid st) = Started uuid (length rows)).
Proof.
  unfold send_emails.
  destruct (truthy (req_email req)) eqn:He; cbn [negb orb];
    [|left; eexists _, _; split; [reflexivity|by left]].
  destruct (truthy (req_password req)) eqn:Hp; cbn [negb orb];
    [|left; eexists _, _; split; [reflexivity|by left]].
  destruct (request_rows req) as [early|[rows|message]] eqn:Hrows.
  - left. unfold request_rows in Hrows.
    destruct (decide (req_mode req = Some (str "csv")));
      [destruct (req_file req) as [[]|]|
       destruct (decide (req_mode req = Some (str "manual")));
       [destruct (req_data req) as [[]|]|]];
      try discriminate; injection Hrows as <-;
      eexists _, _; (split; [reflexivity|by left]).
  - destruct (decide (length rows = 0)) as [H0|H0].
    + left. eexists _, _. split; [reflexivity|by left].
    + right. exists rows. split_and!; try reflexivity.
      intros ->. by apply H0.
  - left. eexists _, _. split; [reflexivity|by right].
Qed.

(** X8. A start request that is answered with a failure leaves the store, the
    clients and the trace as they were: no job is stored and no loop is
    scheduled; the status is 400 or 500. *)
Theorem rejected_start_changes_nothing req uuid st code message :
  fst (send_emails req uuid st) = Failure code message ->
  snd (send_emails req uuid st) = st /\ (code = 400 \/ code = 500).
Proof.
  intros Hf.
  destruct (send_emails_outcome req uuid st)
    as [(code' & message' & Hs & Hcode)|(rows & _ & _ & _ & _ & Hs)].
  - rewrite Hs in Hf |- *. cbn [fst snd] in *. injection Hf as <- <-. by split.
  - rewrite Hs in Hf. discriminate.
Qed.

Lemma rejected_start_changes_nothing_witness :
  snd (send_emails
         {| req_email := Some me; req_password := None;
            req_mode := Some (str "manual"); req_userType := None;
            req_customEmailBody := None; req_file := None;
            req_data := Some (Parsed [ada]) |} (str "job-9") Examples.started)
  = Examples.started.
Proof.
  apply (rejected_start_changes_nothing _ _ _ 400
           (str "Email credentials are required")).
  reflexivity.
Defined.

(** X9. A start request that is accepted stores a new job object for the
    sender, with the counters at zero, [total] the number of rows, at least
    one; the entries of the other senders, every object that was there,
    also the job the sender had before, and the clients stay as they
    were. *)
Theorem accepted_start_replaces_entry req uuid uuid' n st :
  fst (send_emails req uuid st) = Started uuid' n ->
  let sender := to_string (req_email req) in
  let st' := snd (send_emails req uuid st) in
  (exists l job,
     stored_fresh st' sender l job /\ heap st !! l = None
     /\ jobId job = uuid /\ uuid' = uuid /\ total job = n /\ 0 < n
     /\ status job = preparing)
  /\ (forall s, s <> sender -> emailJobs st' !! s = emailJobs st !! s)
  /\ (forall l job, heap st !! l = Some job -> heap st' !! l = Some job)
  /\ clients st' = clients st.
Proof.
  intros Hs sender st'. subst st'.
  destruct (send_emails_outcome req uuid st)
    as [(code & message & Hf & _)|(rows & He & Hp & Hrows & Hne & Hs')].
  { rewrite Hf in Hs. discriminate. }
  rewrite Hs' in Hs. injection Hs as <- <-.
  pose proof (send_emails_stored_fresh req uuid rows st He Hp Hrows Hne) as Hfresh.
  rewrite (send_emails_started req uuid rows st He Hp Hrows Hne) in *.
  cbn [snd emailJobs heap clients] in *. fold sender in Hfresh |- *.
  assert (heap st !! fresh (dom (heap st)) = None) as Hnew.
  { apply not_elem_of_dom, is_fresh. }
  split_and!.
  - exists (fresh (dom (heap st))), (new_job uuid rows req).
    split_and!; try done. destruct rows; [done|simpl; lia].
  - intros s Hne'. by rewrite lookup_insert_ne.
  - intros l job Hl. rewrite lookup_insert_ne; [done|]. congruence.
  - reflexivity.
Qed.

Lemma accepted_start_replaces_entry_witness :
  heap (snd (send_emails Examples.request (str "job-5") builtin_started))
    !! 1%positive
  = Some builtin_job.
Proof.
  destruct (accepted_start_replaces_entry Examples.request (str "job-5")
              (str "job-5") 3 builtin_started eq_refl) as (_ & _ & Hheap & _).
  apply Hheap. reflexivity.
Defined.

(** *** What a computation leaves of [emailJobs] *)

Lemma jobs_to_bind {A B} f (c : M A) (k : A -> M B) :
  jobs_to id c -> (forall a, jobs_to f (k a)) -> jobs_to f (bind c k).
Proof.
  intros Hc Hk st. unfold bind. specialize (Hc st).
  destruct (c st) as [a st1]. cbn [snd] in Hc. rewrite Hk. by rewrite Hc.
Qed.

Lemma jobs_to_ret {A} (a : A) : jobs_to id (ret a).
Proof. by intros st. Qed.

Lemma jobs_to_gets {A} (f : State -> A) : jobs_to id (gets f).
Proof. by intros st. Qed.

Lemma jobs_to_read l : jobs_to id (read l).
Proof. by intros st. Qed.

Lemma jobs_to_update l f : jobs_to id (update l f).
Proof. by intros st. Qed.

Lemma jobs_to_emit a : jobs_to id (emit a).
Proof. by intros st. Qed.

Lemma jobs_to_sendToClient sender data : jobs_to id (sendToClient sender data).
Proof. intros st. by rewrite sendToClient_state. Qed.

Lemma jobs_to_sendEmail env row l : jobs_to id (sendEmail env row l).
Proof.
  unfold sendEmail. apply jobs_to_bind; [apply jobs_to_emit|intros _].
  apply jobs_to_bind; [apply jobs_to_read|intros job].
  destruct (mailOptions row job); [|apply jobs_to_ret].
  apply jobs_to_bind; [apply jobs_to_gets|intros t].
  apply jobs_to_bind; [apply jobs_to_emit|intros _]. apply jobs_to_ret.
Qed.

Lemma jobs_to_iteration env sender l i row :
  jobs_to id (iteration env sender l i row).
Proof.
  unfold iteration. apply jobs_to_bind; [apply jobs_to_update|intros _].
  destruct (missing_required row).
  - apply jobs_to_bind; [apply jobs_to_sendToClient|intros _].
    apply jobs_to_update.
  - apply jobs_to_bind; [apply jobs_to_sendEmail|intros sent].
    apply jobs_to_bind.
    + destruct sent;
        (apply jobs_to_bind; [apply jobs_to_update|intros _];
         apply jobs_to_bind; [apply jobs_to_read|intros job];
         apply jobs_to_sendToClient).
    + intros _. apply jobs_to_bind; [apply jobs_to_read|intros job].
      apply jobs_to_bind; [apply jobs_to_sendToClient|intros _].
      destruct (i <? _); [apply jobs_to_emit|apply jobs_to_ret].
Qed.

Lemma jobs_to_loop env sender l rows : forall i,
  jobs_to id (loop env sender l i rows).
Proof.
  induction rows as [|row rows IH]; intros i; [apply jobs_to_ret|].
  cbn [loop]. apply jobs_to_bind; [apply jobs_to_iteration|intros _]. apply IH.
Qed.

(** X10. When [processEmailJob] returns, [emailJobs] has no entry for the
    sender and the entries of the other senders are as they were: whether
    there was no job, the transport could not be set up, or the loop ran. *)
Theorem run_removes_the_entry env sender st :
  emailJobs (snd (processEmailJob env sender st)) = delete sender (emailJobs st).
Proof.
  unfold processEmailJob. unfold bind at 1. unfold gets at 1. cbn [fst snd].
  destruct (emailJobs st !! sender) as [l|] eqn:HE.
  - revert st HE.
    assert (forall c : M unit, jobs_to (delete sender) c ->
            forall st : State, emailJobs st !! sender = Some l ->
              emailJobs (snd (c st)) = delete sender (emailJobs st)) as Hgen.
    { intros c Hc st _. apply Hc. }
    intros st HE. apply Hgen; [|exact HE].
    apply jobs_to_bind; [apply jobs_to_update|intros _].
    apply jobs_to_bind; [apply jobs_to_read|intros job].
    apply jobs_to_bind; [apply jobs_to_gets|intros t].
    apply jobs_to_bind; [apply jobs_to_emit|intros _].
    destruct (createTransporter env t (email job) (password job)).
    + apply jobs_to_bind; [apply jobs_to_sendToClient|intros _].
      apply jobs_to_bind; [apply jobs_to_read|intros job1].
      apply jobs_to_bind; [apply jobs_to_loop|intros _].
      apply jobs_to_bind; [apply jobs_to_read|intros job2].
      apply jobs_to_bind; [apply jobs_to_sendToClient|intros _].
      by intros st'.
    + apply jobs_to_bind; [apply jobs_to_sendToClient|intros _].
      apply jobs_to_bind; [apply jobs_to_read|intros job1].
      apply jobs_to_bind; [apply jobs_to_sendToClient|intros _].
      by intros st'.
  - unfold ret. cbn [snd]. by rewrite delete_id.
Qed.

(** X11. A subscription that is closed is gone from [clients], and with it any
    client that was registered under the same id ([Date.now()] of the same
    millisecond); the store and the trace are as before the subscription. *)
Theorem subscribe_then_close query now st :
  truthy query = true ->
  let st' := snd (close now (snd (send_emails_sse query now st))) in
  clients st' = delete now (clients st)
  /\ emailJobs st' = emailJobs st /\ heap st' = heap st /\ trace st' = trace st.
Proof.
  intros Hq st'. subst st'. unfold send_emails_sse, close. rewrite Hq.
  cbn [negb]. unfold bind, gets, modify, read, ret, set_clients.
  destruct (emailJobs st !! to_string query); simpl;
    rewrite delete_insert_eq; split_and!; reflexivity.
Qed.

Lemma subscribe_then_close_witness :
  clients (snd (close 7 (snd (send_emails_sse (Some me) 7 watched))))
    !! 7 = None.
Proof.
  destruct (subscribe_then_close (Some me) 7 watched eq_refl) as [-> _].
  apply lookup_delete_eq.
Defined.

(** X12. A client that subscribes after a progress event has been published
    for a sender with a stored job starts with the counters of that event
    and the [total] of the job. *)
Theorem snapshot_after_progress sender l job t c s f now st :
  sender <> [] ->
  emailJobs st !! sender = Some l -> heap st !! l = Some job ->
  let st1 := snd (sendToClient sender (Progress t c s f) st) in
  let st2 := snd (send_emails_sse (Some sender) now st1) in
  res <$> clients st2 !! now = Some [Progress (total job) c s f].
Proof.
  intros Hne HE Hl st1 st2. subst st1 st2.
  rewrite sendToClient_state. cbn [snd].
  unfold send_emails_sse. destruct sender as [|ch sender]; [done|].
  cbn [truthy negb to_string].
  unfold bind, read, gets, modify, ret, set_clients.
  cbn [snd emailJobs heap clients trace]. rewrite HE.
  cbn [snd emailJobs heap clients trace]. rewrite lookup_insert_eq.
  cbn [fmap option_fmap option_map res]. rewrite !lookup_total_alter_eq.
  rewrite !lookup_alter_eq, Hl. reflexivity.
Qed.

Lemma snapshot_after_progress_witness :
  res <$> clients
            (snd (send_emails_sse (Some me) 9
                    (snd (sendToClient me (Progress 3 2 1 1) builtin_started))))
          !! 9
  = Some [Progress 3 2 1 1].
Proof.
  apply (snapshot_after_progress me 1%positive builtin_job 3 2 1 1 9
           builtin_started); [discriminate|reflexivity|reflexivity].
Defined.

(** X13. The loop body writes the counters of its own job into whatever job is
    stored for the sender.  When the entry has been replaced by a new start
    while the loop was under way, a row that is tried leaves the new job
    with [current], [success] and [failed] of the old one; the [total] of
    the new job and the rest of it are kept. *)
Theorem stale_loop_overwrites_counters env sender l1 l2 i row st job1 job2 :
  l1 <> l2 ->
  emailJobs st !! sender = Some l2 ->
  heap st !! l1 = Some job1 -> heap st !! l2 = Some job2 ->
  missing_required row = false ->
  let st' := snd (iteration env sender l1 i row st) in
  exists job1',
    heap st' !! l1 = Some job1'
    /\ current job1' = i + 1
    /\ success job1' + failed job1' = success job1 + failed job1 + 1
    /\ heap st' !! l2
       = Some (with_failed (failed job1')
                 (with_success (success job1') (with_current (i + 1) job2))).
Proof.
  intros Hne HE H1 H2 Hmiss st'. subst st'.
  destruct st as [E h C T]. cbn [emailJobs heap clients trace] in *.
  exists (processed i (attempt env T row job1) job1).
  rewrite <- (insert_id h l1 job1 H1).
  unfold iteration, attempt, bind, update, modify, set_heap.
  cbn [heap emailJobs clients trace]. rewrite alter_insert_eq, Hmiss.
  unfold sendEmail, bind, emit, modify, set_trace, read, gets, ret.
  cbn [heap emailJobs clients trace]. rewrite lookup_total_insert_eq.
  rewrite mailOptions_counters.
  destruct (mailOptions row job1) as [options|message];
    cbn [heap emailJobs clients trace];
    [destruct (sendMail env (T ++ [SendEmail row]) options) as [[]|message]|];
    cbn [heap emailJobs clients trace];
    rewrite alter_insert_eq, lookup_total_insert_eq, !sendToClient_state;
    cbn [heap emailJobs clients trace]; rewrite HE, lookup_total_insert_eq;
    (destruct (i <? _); unfold emit, modify, set_trace, ret;
     cbn [snd heap emailJobs clients trace];
     rewrite !lookup_alter_ne by congruence; rewrite lookup_insert_eq;
     rewrite !lookup_alter_eq, lookup_insert_ne, H2 by congruence;
     repeat split; try reflexivity; simpl; lia).
Qed.

Lemma stale_loop_overwrites_counters_witness :
  heap (snd (iteration online me 1%positive 1 ada replaced)) !! 2%positive
  = Some (with_failed 0
            (with_success 2
               (with_current 2 (new_job (str "job-3") [ada] builtin_request)))).
Proof.
  destruct (stale_loop_overwrites_counters online me 1%positive 2%positive 1 ada
              replaced (with_success 1 (with_current 1 builtin_job))
              (new_job (str "job-3") [ada] builtin_request))
    as (job1' & H1 & _ & _ & H2); [discriminate|reflexivity..|].
  rewrite H2. injection H1 as <-. reflexivity.
Defined.

(** ** More on the renderer *)

Lemma replace_global_copy m r s :
  dollar_led m -> no_dollar s = true -> replace_global m r s = s.
Proof.
  intros Hm Hs. unfold replace_global.
  rewrite <- (app_nil_r s) at 2. rewrite replace_from_copy by assumption.
  cbn [replace_from]. apply app_nil_r.
Qed.

Lemma replace_variables_copy firstName Name Company Email Role Link s :
  no_dollar s = true ->
  replace_variables firstName Name Company Email Role Link s = s.
Proof.
  intros Hs. unfold replace_variables, replace_all.
  change (str "${firstName}") with (placeholder_text P_firstName).
  change (str "${Name}") with (placeholder_text P_Name).
  change (str "${Company}") with (placeholder_text P_Company).
  change (str "${Email}") with (placeholder_text P_Email).
  change (str "${Role}") with (placeholder_text P_Role).
  change (str "${Link}") with (placeholder_text P_Link).
  rewrite (replace_global_copy (literal (placeholder_text P_firstName)))
    by auto using literal_placeholder_led.
  rewrite (replace_global_copy (literal (placeholder_text P_Name)))
    by auto using literal_placeholder_led.
  rewrite (replace_global_copy (literal (placeholder_text P_Company)))
    by auto using literal_placeholder_led.
  rewrite (replace_global_copy (literal (placeholder_text P_Email)))
    by auto using literal_placeholder_led.
  rewrite (replace_global_copy (literal (placeholder_text P_Role)))
    by auto using literal_placeholder_led.
  apply replace_global_copy; auto using literal_placeholder_led.
Qed.

(** X14. A custom body without a dollar sign is sent as it is, trimmed and
    set in the document, whatever the fields of the row hold. *)
Theorem body_without_dollar_verbatim row job name body :
  Name row = Some name ->
  userType job = Some (str "other") ->
  customEmailBody job = Some body -> body <> [] ->
  no_dollar (trim body) = true ->
  exists m, mailOptions row job = Return m /\ html m = document (trim body).
Proof.
  intros Hn Hu Hb Hne Hplain.
  destruct (mailOptions_custom row job name body Hn Hu Hb Hne) as (m & Hm & Hh).
  exists m. split; [exact Hm|]. rewrite Hh. unfold custom.
  assert (no_dollar (document (trim body)) = true) as Hdoc.
  { unfold document. destruct document_parts_plain as (H0 & Hs & H1 & H2).
    rewrite !no_dollar_app, H0, Hs, H1, H2, Hplain. reflexivity. }
  unfold resolve_link.
  rewrite (replace_global_copy linkRegex) by auto using linkRegex_dollar_led.
  apply replace_variables_copy, Hdoc.
Qed.

Lemma body_without_dollar_verbatim_witness :
  exists m,
    mailOptions Examples.dora
      (job_of (str "other") (Some (str "  <body>Hello</body> ")))
    = Return m
    /\ html m = document (trim (str "  <body>Hello</body> ")).
Proof.
  apply (body_without_dollar_verbatim Examples.dora _ (str "Dora Hall"));
    [reflexivity|reflexivity|reflexivity|discriminate|vm_compute; reflexivity].
Defined.

(** X15. For a row with a name, [sendEmail] gets to the transport exactly
    when the job is of the builtin variant, or of the custom variant with a
    body; the message then goes to the [Email] of the row with the subject
    made of [Role] and [Company].  Otherwise it throws, with one message for
    the custom variant without a body and another for any other variant. *)
Theorem rendering_outcome row job name :
  Name row = Some name ->
  match mailOptions row job with
  | Return m =>
      renderable job = true /\ mail_to m = Email row
      /\ subject m
         = str "Request for an Interview Opportunity - "
             ++ to_string (Role row) ++ str " at " ++ to_string (Company row)
  | Throw message =>
      renderable job = false
      /\ message
         = if bool_decide (userType job = Some (str "other"))
           then str "No custom email template provided"
           else str "Invalid user type specified"
  end.
Proof. exact (mailOptions_outcome row job name). Qed.

Lemma rendering_outcome_witness :
  match mailOptions ada (job_of (str "recruiter") None) with
  | Return m => False
  | Throw message => message = str "Invalid user type specified"
  end.
Proof.
  pose proof (rendering_outcome ada (job_of (str "recruiter") None)
                (str "Ada Lovelace") eq_refl) as H.
  destruct (mailOptions ada (job_of (str "recruiter") None)).
  - destruct H as [H _]. discriminate H.
  - destruct H as [_ H]. exact H.
Defined.

(** ** The upload filter *)

Lemma contains_occurs a b : contains a b -> occurs b a = true.
Proof.
  intros (pre & post & ->). induction pre as [|c pre IH].
  - cbn [app]. destruct (b ++ post) eqn:E; cbn [occurs];
      rewrite <- E, starts_with_app; reflexivity.
  - cbn [app occurs]. rewrite IH. apply orb_true_r.
Qed.

Lemma occurs_iff a b : occurs b a = true <-> contains a b.
Proof. split; [apply occurs_contains|apply contains_occurs]. Qed.

Lemma filetypes_test_iff s :
  filetypes_test s = true
  <-> contains s (str "csv") \/ contains s (str "xls").
Proof.
  unfold filetypes_test. rewrite !orb_true_iff, !occurs_iff. split.
  - intros [[H|(pre & post & ->)]|H]; [by left| |by right].
    right. exists pre, (120%N :: post). reflexivity.
  - intros [H|H]; [by left; left|by right].
Qed.

(** X16. The upload filter lets a file through exactly when the text [csv]
    or the text [xls] stands somewhere in the lowered extension and
    somewhere in the MIME type; any other file is answered with the error
    that names the three kinds. *)
Theorem fileFilter_accepts extname mimetype :
  (fileFilter extname mimetype = Return true
   <-> (contains extname (str "csv") \/ contains extname (str "xls"))
       /\ (contains mimetype (str "csv") \/ contains mimetype (str "xls")))
  /\ (fileFilter extname mimetype = Return true
      \/ fileFilter extname mimetype
         = Throw (str "Only CSV, XLSX, and XLS files are allowed!")).
Proof.
  unfold fileFilter. rewrite <- !filetypes_test_iff.
  destruct (filetypes_test extname), (filetypes_test mimetype); cbn [andb];
    (split; [split; [intros H; try discriminate H; by split
                    |intros [? ?]; try discriminate; reflexivity]
            |auto]).
Qed.
